(** * BLE diagnostics screen: a shallow embedding of
      [src/app/(tabs)/diagnostics.tsx] and the properties of its seven steps.

    The screen is a React component: its state lives in [useState] cells and
    [useRef] boxes, and every handler ([runCreateManager], [runCheckState],
    ...) is a closure that queues state updates.  Queued updates are applied
    in order, so a handler is modelled as a function [AppState -> AppState]
    that applies them one after the other.  Asynchronous code is split at its
    suspension points: the part of a handler that runs later (a promise
    continuation, a listener, a timer) is a function of its own that takes the
    variables its closure captured as arguments. *)

From Stdlib Require Import List String Ascii Bool ZArith Arith Lia DecimalString.
Import ListNotations.
Open Scope string_scope.

Set Implicit Arguments.

(** ** JavaScript values used by the screen *)

Module Js.

(** [String.prototype.toUpperCase] on the ASCII range, which is where UUID
    strings live; a byte outside [a-z] is left as it is. *)
Definition upper_ascii (c : ascii) : ascii :=
  let n := nat_of_ascii c in
  if (97 <=? n)%nat && (n <=? 122)%nat then ascii_of_nat (n - 32) else c.

Fixpoint toUpperCase (s : string) : string :=
  match s with
  | EmptyString => EmptyString
  | String c r => String (upper_ascii c) (toUpperCase r)
  end.

(** [s.startsWith(p)] *)
Definition startsWith (s p : string) : bool := String.prefix p s.

(** [xs.includes(x)] on an array of strings *)
Definition includes (xs : list string) (x : string) : bool :=
  existsb (String.eqb x) xs.

(** [xs.join(sep)] *)
Definition join (sep : string) (xs : list string) : string :=
  String.concat sep xs.

(** A number inside a template literal; the screen only prints integers. *)
Definition show (z : Z) : string := NilZero.string_of_int (Z.to_int z).

(** The [??] operator. *)
Definition orElse {A} (o : option A) (d : A) : A :=
  match o with Some a => a | None => d end.

(** What a [try] block observes of a call: a value, or a thrown error with
    its [message] and, for a BLE error, its [errorCode]. *)
Record Error := mkError { err_message : string; err_code : option Z }.

Inductive result (A : Type) : Type :=
| Ok (a : A)
| Throw (e : Error).
Arguments Throw {A} e.

(** [Map<string, V>]: keys are unique and iteration follows insertion
    order; [set] on a key already present keeps its position. *)
Section Map.
Variable V : Type.

Definition Map := list (string * V).

Definition has (m : Map) (k : string) : bool :=
  existsb (fun kv => String.eqb (fst kv) k) m.

Fixpoint get (m : Map) (k : string) : option V :=
  match m with
  | [] => None
  | (k', v) :: r => if String.eqb k' k then Some v else get r k
  end.

Fixpoint set (m : Map) (k : string) (v : V) : Map :=
  match m with
  | [] => [(k, v)]
  | (k', v') :: r =>
      if String.eqb k' k then (k, v) :: r else (k', v') :: set r k v
  end.

Definition keys (m : Map) : list string := map fst m.
Definition values (m : Map) : list V := map snd m.
Definition size (m : Map) : nat := List.length m.
End Map.

End Js.

Import Js.

(** ** The part of react-native-ble-plx the screen touches *)

Inductive State :=
| Unknown | Resetting | Unsupported | Unauthorized | PoweredOff | PoweredOn.

(** The [State] enum's members are the strings of their names. *)
Definition State_str (s : State) : string :=
  match s with
  | Unknown => "Unknown"
  | Resetting => "Resetting"
  | Unsupported => "Unsupported"
  | Unauthorized => "Unauthorized"
  | PoweredOff => "PoweredOff"
  | PoweredOn => "PoweredOn"
  end.

Definition State_eqb (a b : State) : bool :=
  match a, b with
  | Unknown, Unknown | Resetting, Resetting | Unsupported, Unsupported
  | Unauthorized, Unauthorized | PoweredOff, PoweredOff | PoweredOn, PoweredOn => true
  | _, _ => false
  end.

Record BleError := mkBleError { errorCode : Z; errorMessage : string }.

Record Device := mkDevice {
  dev_id : string;
  dev_name : option string;
  dev_localName : option string;
  dev_rssi : option Z;
  dev_serviceUUIDs : option (list string);
  dev_mtu : Z
}.

Record Characteristic := mkChar {
  char_uuid : string;
  isReadable : bool;
  isWritableWithResponse : bool;
  isWritableWithoutResponse : bool;
  isNotifiable : bool;
  isIndicatable : bool
}.

(** A discovered service with what its [characteristics()] call yields. *)
Record Service := mkService {
  svc_uuid : string;
  characteristics : result (list Characteristic)
}.

(** Modelled from the spec: the life of a native adapter handle.  The library
    (react-native-ble-plx) is not among the sources; section 5 of the spec and
    the comment in provision.tsx (lines 112-116) say that [destroy()] is
    asynchronous: the handle is being torn down from the call until the
    promise it returns settles. *)
Inductive Lifecycle := Alive | TearingDown | Destroyed.

(** ** Constants (diagnostics.tsx, lines 13-17) *)

Definition SERVICE_UUID := "0000FFE0-0000-1000-8000-00805F9B34FB".
Definition STATUS_CHAR_UUID := "0000FFE1-0000-1000-8000-00805F9B34FB".
Definition COMMAND_CHAR_UUID := "0000FFE2-0000-1000-8000-00805F9B34FB".
Definition RESPONSE_CHAR_UUID := "0000FFE3-0000-1000-8000-00805F9B34FB".
Definition DEVICE_NAME_PREFIX := "ESP32-WiFi-".

(** ** Component state *)

Inductive StepStatus := pending | running | pass | fail.

Definition StepStatus_eqb (a b : StepStatus) : bool :=
  match a, b with
  | pending, pending | running, running | pass, pass | fail, fail => true
  | _, _ => false
  end.

Record LogEntry := mkLog { time : string; message : string }.

Record DiscoveredDevice := mkDiscovered {
  id : string;
  name : option string;
  rssi : option Z;
  serviceUUIDs : option (list string)
}.

(** The seven steps.  The source keeps one status cell and one log cell per
    step ([createStatus]/[createLogs], [stateStatus]/[stateLogs], ...) and
    hands the log setter to [addLog]; here the step names the cell. *)
Inductive StepId :=
| Create | CheckState | Scan | FilteredScan | Connect | Discover | Validate.

(** What lies outside the component: the wall clock read by [timestamp()]
    (the n-th call returns [wallClock n]), the native handles created so far
    with their life-cycle, the state-change subscriptions handed out (numbered
    from 0) with the [remove()] calls made on them, and whether a device scan
    is running. *)
Record Platform := mkPlatform {
  wallClock : nat -> string;
  ticks : nat;
  handles : list Lifecycle;
  subsCreated : nat;
  subsRemoved : list nat;
  scanning : bool
}.

(** Seven cells of one type, one per step. *)
Record Cells (A : Type) := mkCells {
  createCell : A;
  stateCell : A;
  scanCell : A;
  filteredScanCell : A;
  connectCell : A;
  discoverCell : A;
  validateCell : A
}.

Definition cell {A} (c : Cells A) (k : StepId) : A :=
  match k with
  | Create => createCell c
  | CheckState => stateCell c
  | Scan => scanCell c
  | FilteredScan => filteredScanCell c
  | Connect => connectCell c
  | Discover => discoverCell c
  | Validate => validateCell c
  end.

Definition upd {A} (c : Cells A) (k : StepId) (v : A) : Cells A :=
  match k with
  | Create => mkCells v (stateCell c) (scanCell c) (filteredScanCell c)
                      (connectCell c) (discoverCell c) (validateCell c)
  | CheckState => mkCells (createCell c) v (scanCell c) (filteredScanCell c)
                          (connectCell c) (discoverCell c) (validateCell c)
  | Scan => mkCells (createCell c) (stateCell c) v (filteredScanCell c)
                    (connectCell c) (discoverCell c) (validateCell c)
  | FilteredScan => mkCells (createCell c) (stateCell c) (scanCell c) v
                            (connectCell c) (discoverCell c) (validateCell c)
  | Connect => mkCells (createCell c) (stateCell c) (scanCell c) (filteredScanCell c)
                       v (discoverCell c) (validateCell c)
  | Discover => mkCells (createCell c) (stateCell c) (scanCell c) (filteredScanCell c)
                        (connectCell c) v (validateCell c)
  | Validate => mkCells (createCell c) (stateCell c) (scanCell c) (filteredScanCell c)
                        (connectCell c) (discoverCell c) v
  end.

Record AppState := mkApp {
  bleManagerRef : option nat;
  connectedDeviceRef : option Device;
  statusCells : Cells StepStatus;
  logCells : Cells (list LogEntry);
  devices : list DiscoveredDevice;
  filteredDevices : list DiscoveredDevice;
  bleState : State;
  platform : Platform
}.

Definition status (st : AppState) (k : StepId) : StepStatus := cell (statusCells st) k.
Definition logs (st : AppState) (k : StepId) : list LogEntry := cell (logCells st) k.

Definition createStatus st := status st Create.
Definition stateStatus st := status st CheckState.
Definition scanStatus st := status st Scan.
Definition filteredScanStatus st := status st FilteredScan.
Definition connectStatus st := status st Connect.
Definition discoverStatus st := status st Discover.
Definition validateStatus st := status st Validate.

Definition createLogs st := logs st Create.
Definition stateLogs st := logs st CheckState.
Definition scanLogs st := logs st Scan.
Definition filteredScanLogs st := logs st FilteredScan.
Definition connectLogs st := logs st Connect.
Definition discoverLogs st := logs st Discover.
Definition validateLogs st := logs st Validate.

(** The messages of a log, without their times. *)
Definition messages (l : list LogEntry) : list string := map message l.

(** *** Cell updates *)

Definition setManagerRef (m : option nat) (st : AppState) : AppState :=
  mkApp m (connectedDeviceRef st) (statusCells st) (logCells st) (devices st)
        (filteredDevices st) (bleState st) (platform st).

Definition setConnectedRef (d : option Device) (st : AppState) : AppState :=
  mkApp (bleManagerRef st) d (statusCells st) (logCells st) (devices st)
        (filteredDevices st) (bleState st) (platform st).

Definition setStatus (k : StepId) (v : StepStatus) (st : AppState) : AppState :=
  mkApp (bleManagerRef st) (connectedDeviceRef st) (upd (statusCells st) k v) (logCells st)
        (devices st) (filteredDevices st) (bleState st) (platform st).

Definition setLogs (k : StepId) (v : list LogEntry) (st : AppState) : AppState :=
  mkApp (bleManagerRef st) (connectedDeviceRef st) (statusCells st) (upd (logCells st) k v)
        (devices st) (filteredDevices st) (bleState st) (platform st).

Definition setDevices (v : list DiscoveredDevice) (st : AppState) : AppState :=
  mkApp (bleManagerRef st) (connectedDeviceRef st) (statusCells st) (logCells st)
        v (filteredDevices st) (bleState st) (platform st).

Definition setFilteredDevices (v : list DiscoveredDevice) (st : AppState) : AppState :=
  mkApp (bleManagerRef st) (connectedDeviceRef st) (statusCells st) (logCells st)
        (devices st) v (bleState st) (platform st).

Definition setBleState (v : State) (st : AppState) : AppState :=
  mkApp (bleManagerRef st) (connectedDeviceRef st) (statusCells st) (logCells st)
        (devices st) (filteredDevices st) v (platform st).

Definition setPlatform (p : Platform) (st : AppState) : AppState :=
  mkApp (bleManagerRef st) (connectedDeviceRef st) (statusCells st) (logCells st)
        (devices st) (filteredDevices st) (bleState st) p.

(** *** Platform calls *)

(** [timestamp()]: reads the clock. *)
Definition timestamp (st : AppState) : string * AppState :=
  let p := platform st in
  (wallClock p (ticks p),
   setPlatform (mkPlatform (wallClock p) (S (ticks p)) (handles p)
                           (subsCreated p) (subsRemoved p) (scanning p)) st).

Fixpoint setNth {A} (n : nat) (v : A) (l : list A) : list A :=
  match l, n with
  | [], _ => []
  | _ :: r, O => v :: r
  | x :: r, S n' => x :: setNth n' v r
  end.

(** Modelled from the spec: the library keeps one shared instance, which a
    completed teardown clears (provision.tsx, lines 112-116).  It is the
    first handle of the list whose teardown has not completed. *)
Fixpoint firstNotDestroyed (hs : list Lifecycle) (i : nat) : option nat :=
  match hs with
  | [] => None
  | Destroyed :: r => firstNotDestroyed r (S i)
  | _ :: _ => Some i
  end.

Definition sharedInstance (st : AppState) : option nat :=
  firstNotDestroyed (handles (platform st)) 0.

(** Modelled from the spec: [new BleManager()] returns the shared instance
    while there is one, also when [destroy()] has already been called on it,
    and a fresh live handle only when there is none. *)
Definition newBleManager (st : AppState) : nat * AppState :=
  let p := platform st in
  match sharedInstance st with
  | Some h => (h, st)
  | None =>
      (List.length (handles p),
       setPlatform (mkPlatform (wallClock p) (ticks p) (handles p ++ [Alive])
                               (subsCreated p) (subsRemoved p) (scanning p)) st)
  end.

(** Modelled from the spec: [manager.destroy()] starts the teardown of handle
    [h] and returns its promise at once. *)
Definition destroy (h : nat) (st : AppState) : AppState :=
  let p := platform st in
  setPlatform (mkPlatform (wallClock p) (ticks p) (setNth h TearingDown (handles p))
                          (subsCreated p) (subsRemoved p) (scanning p)) st.

(** Modelled from the spec: the promise returned by [destroy()] on handle [h]
    settles, which completes the teardown. *)
Definition teardownDone (h : nat) (st : AppState) : AppState :=
  let p := platform st in
  match nth_error (handles p) h with
  | Some TearingDown =>
      setPlatform (mkPlatform (wallClock p) (ticks p) (setNth h Destroyed (handles p))
                              (subsCreated p) (subsRemoved p) (scanning p)) st
  | _ => st
  end.

(** [manager.onStateChange(listener, true)]: hands out the next subscription. *)
Definition onStateChange (st : AppState) : nat * AppState :=
  let p := platform st in
  (subsCreated p,
   setPlatform (mkPlatform (wallClock p) (ticks p) (handles p)
                           (S (subsCreated p)) (subsRemoved p) (scanning p)) st).

(** [sub.remove()] *)
Definition remove (sub : nat) (st : AppState) : AppState :=
  let p := platform st in
  setPlatform (mkPlatform (wallClock p) (ticks p) (handles p)
                          (subsCreated p) (sub :: subsRemoved p) (scanning p)) st.

Definition setScanning (b : bool) (st : AppState) : AppState :=
  let p := platform st in
  setPlatform (mkPlatform (wallClock p) (ticks p) (handles p)
                          (subsCreated p) (subsRemoved p) b) st.

(** [manager.startDeviceScan(...)] and [manager.stopDeviceScan()] *)
Definition startDeviceScan := setScanning true.
Definition stopDeviceScan := setScanning false.

(** A subscription is active from its creation to the first [remove()]. *)
Definition removals (sub : nat) (st : AppState) : nat :=
  count_occ Nat.eq_dec (subsRemoved (platform st)) sub.

Definition active (sub : nat) (st : AppState) : Prop :=
  (sub < subsCreated (platform st))%nat /\ removals sub st = 0%nat.

Definition activeSubs (st : AppState) : list nat :=
  filter (fun s => negb (existsb (Nat.eqb s) (subsRemoved (platform st))))
         (seq 0 (subsCreated (platform st))).

Definition lifecycle (h : nat) (st : AppState) : option Lifecycle :=
  nth_error (handles (platform st)) h.

(** *** [addLog] (lines 106-111) *)

Definition addLog (setter : StepId) (msg : string) (st : AppState) : AppState :=
  let '(t, st) := timestamp st in
  setLogs setter (logs st setter ++ [mkLog t msg]) st.

(** ** The handlers *)

Definition nl : string := String "010"%char EmptyString.
Definition dquote : string := String "034"%char EmptyString.

(** *** Step 1: Create BleManager (lines 131-151).
    [alloc] is what [new BleManager()] does: return, or throw. *)
Definition runCreateManager (alloc : result unit) (st : AppState) : AppState :=
  let st :=
    match bleManagerRef st with
    | Some h =>
        let st := addLog Create "BleManager already exists, destroying first..." st in
        let st := destroy h st in
        setManagerRef None st
    | None => st
    end in
  let st := setStatus Create running st in
  let st := setLogs Create [] st in
  let st := addLog Create "Creating new BleManager()..." st in
  match alloc with
  | Ok _ =>
      let '(manager, st) := newBleManager st in
      let st := setManagerRef (Some manager) st in
      let st := addLog Create "BleManager created successfully" st in
      setStatus Create pass st
  | Throw error =>
      let st := addLog Create ("FAILED: " ++ err_message error) st in
      setStatus Create fail st
  end.

(** *** Step 2: Check BLE State (lines 154-193).
    The handler runs up to [manager.state()]; the second component tells
    whether that promise is now pending, and on which manager. *)
Definition runCheckState (st : AppState) : AppState * option nat :=
  match bleManagerRef st with
  | None =>
      let st := addLog CheckState "ERROR: No BleManager — run Step 1 first" st in
      (setStatus CheckState fail st, None)
  | Some manager =>
      let st := setStatus CheckState running st in
      let st := setLogs CheckState [] st in
      let st := addLog CheckState "Checking BLE adapter state..." st in
      (st, Some manager)
  end.

(** The continuation of [manager.state()] (lines 166-192).  When the state is
    not PoweredOn it subscribes and arms the 10 s timer; the second component
    is the subscription [sub] that the listener and the timer both capture. *)
Definition onStateResolved (state : State) (st : AppState) : AppState * option nat :=
  let st := setBleState state st in
  let st := addLog CheckState ("Current state: " ++ State_str state) st in
  if State_eqb state PoweredOn then (setStatus CheckState pass st, None)
  else
    let st := addLog CheckState
                ("Waiting for state change (currently " ++ State_str state ++ ")...") st in
    let '(sub, st) := onStateChange st in
    (st, Some sub).

(** Step 2 up to the point where it waits: the handler and, when it got past
    its guard, the continuation of [manager.state()] resolving to [state]. *)
Definition checkStateRun (state : State) (st : AppState) : AppState * option nat :=
  match runCheckState st with
  | (st, Some manager) => onStateResolved state st
  | (st, None) => (st, None)
  end.

(** The listener given to [onStateChange] (lines 174-181). *)
Definition stateListener (sub : nat) (newState : State) (st : AppState) : AppState :=
  let st := setBleState newState st in
  let st := addLog CheckState ("State changed to: " ++ State_str newState) st in
  if State_eqb newState PoweredOn then
    let st := setStatus CheckState pass st in
    remove sub st
  else st.

(** The timer body (lines 184-190).  [stateStatus] is the variable of the
    render whose [runCheckState] closure was invoked: [useCallback] rebuilds
    the closure when [stateStatus] changes, and the timer reads the value the
    closure was built with, not the cell. *)
Definition stateTimeout (stateStatus : StepStatus) (sub : nat) (st : AppState) : AppState :=
  if StepStatus_eqb stateStatus running then
    let st := addLog CheckState "Timed out waiting for PoweredOn" st in
    let st := setStatus CheckState fail st in
    remove sub st
  else st.

(** *** Steps 3 and 4: the scans (lines 196-296) *)

(** The [entry] object built from an advertisement (lines 219-224, 275-280). *)
Definition toEntry (device : Device) : DiscoveredDevice :=
  mkDiscovered (dev_id device)
               (match dev_name device with
                | Some n => Some n
                | None => dev_localName device
                end)
               (dev_rssi device)
               (dev_serviceUUIDs device).

Definition showRssi (r : option Z) : string :=
  match r with Some z => show z | None => "null" end.

(** [d.name?.startsWith(DEVICE_NAME_PREFIX)] as a condition *)
Definition isEsp (d : DiscoveredDevice) : bool :=
  match name d with
  | Some n => startsWith n DEVICE_NAME_PREFIX
  | None => false
  end.

(** The second component tells whether the scan was started. *)
Definition runUnfilteredScan (st : AppState) : AppState * bool :=
  match bleManagerRef st with
  | None =>
      let st := addLog Scan "ERROR: No BleManager — run Step 1 first" st in
      (setStatus Scan fail st, false)
  | Some manager =>
      let st := setStatus Scan running st in
      let st := setLogs Scan [] st in
      let st := setDevices [] st in
      let st := addLog Scan "Starting unfiltered scan for 10 seconds..." st in
      (startDeviceScan st, true)
  end.

(** The scan listener (lines 211-235); [seen] is the map local to the
    invocation, shared by the listener and the timer. *)
Definition scanListener (error : option BleError) (device : option Device)
    (c : Map DiscoveredDevice * AppState) : Map DiscoveredDevice * AppState :=
  let '(seen, st) := c in
  match error with
  | Some error =>
      let st := addLog Scan ("Scan error: [" ++ show (errorCode error) ++ "] "
                             ++ errorMessage error) st in
      (seen, setStatus Scan fail st)
  | None =>
      match device with
      | Some device =>
          if negb (has seen (dev_id device)) then
            let entry := toEntry device in
            let seen := set seen (dev_id device) entry in
            let st := setDevices (values seen) st in
            let nameStr := orElse (name entry) "(unnamed)" in
            let st := addLog Scan
                        ("Found: " ++ nameStr ++ " | " ++ dev_id device ++ " | RSSI: "
                         ++ showRssi (rssi entry)
                         ++ (if isEsp entry then " *** ESP32 ***" else EmptyString)) st in
            (seen, st)
          else (seen, st)
      | None => (seen, st)
      end
  end.

(** The 10 s timer of the unfiltered scan (lines 237-245). *)
Definition scanTimeout (seen : Map DiscoveredDevice) (st : AppState) : AppState :=
  let st := stopDeviceScan st in
  let st := addLog Scan ("Scan complete. Found " ++ show (Z.of_nat (size seen))
                         ++ " device(s).") st in
  let espCount := List.length (filter isEsp (values seen)) in
  let st := addLog Scan ("ESP32 devices (name starts with " ++ dquote
                         ++ DEVICE_NAME_PREFIX ++ dquote ++ "): "
                         ++ show (Z.of_nat espCount)) st in
  setStatus Scan (if (0 <? size seen)%nat then pass else fail) st.

Definition runFilteredScan (st : AppState) : AppState * bool :=
  match bleManagerRef st with
  | None =>
      let st := addLog FilteredScan "ERROR: No BleManager — run Step 1 first" st in
      (setStatus FilteredScan fail st, false)
  | Some manager =>
      let st := setStatus FilteredScan running st in
      let st := setLogs FilteredScan [] st in
      let st := setFilteredDevices [] st in
      let st := addLog FilteredScan
                  ("Starting scan with UUID filter [" ++ SERVICE_UUID
                   ++ "] for 10 seconds...") st in
      (startDeviceScan st, true)
  end.

(** The filtered scan's listener (lines 267-288). *)
Definition filteredScanListener (error : option BleError) (device : option Device)
    (c : Map DiscoveredDevice * AppState) : Map DiscoveredDevice * AppState :=
  let '(seen, st) := c in
  match error with
  | Some error =>
      let st := addLog FilteredScan ("Scan error: [" ++ show (errorCode error) ++ "] "
                                     ++ errorMessage error) st in
      (seen, setStatus FilteredScan fail st)
  | None =>
      match device with
      | Some device =>
          if negb (has seen (dev_id device)) then
            let entry := toEntry device in
            let seen := set seen (dev_id device) entry in
            let st := setFilteredDevices (values seen) st in
            let st := addLog FilteredScan
                        ("Found: " ++ orElse (name entry) "(unnamed)" ++ " | "
                         ++ dev_id device ++ " | RSSI: " ++ showRssi (rssi entry)) st in
            (seen, st)
          else (seen, st)
      | None => (seen, st)
      end
  end.

(** The 10 s timer of the filtered scan (lines 291-295). *)
Definition filteredScanTimeout (seen : Map DiscoveredDevice) (st : AppState) : AppState :=
  let st := stopDeviceScan st in
  let st := addLog FilteredScan ("Filtered scan complete. Found "
                                 ++ show (Z.of_nat (size seen)) ++ " device(s).") st in
  setStatus FilteredScan (if (0 <? size seen)%nat then pass else fail) st.

(** One advertisement callback: the [(error, device)] pair the listener gets. *)
Definition Callback : Type := option BleError * option Device.

(** The callbacks of a window, delivered in arrival order. *)
Definition scanFold (cbs : list Callback) (c : Map DiscoveredDevice * AppState) :=
  fold_left (fun c cb => scanListener (fst cb) (snd cb) c) cbs c.

Definition filteredScanFold (cbs : list Callback) (c : Map DiscoveredDevice * AppState) :=
  fold_left (fun c cb => filteredScanListener (fst cb) (snd cb) c) cbs c.

(** A whole scan window: the handler, then the callbacks in arrival order,
    then the timer. *)
Definition unfilteredScanWindow (cbs : list Callback) (st : AppState)
  : Map DiscoveredDevice * AppState :=
  match runUnfilteredScan st with
  | (st, false) => ([], st)
  | (st, true) =>
      let '(seen, st) := scanFold cbs ([], st) in
      (seen, scanTimeout seen st)
  end.

Definition filteredScanWindow (cbs : list Callback) (st : AppState)
  : Map DiscoveredDevice * AppState :=
  match runFilteredScan st with
  | (st, false) => ([], st)
  | (st, true) =>
      let '(seen, st) := filteredScanFold cbs ([], st) in
      (seen, filteredScanTimeout seen st)
  end.

(** *** Step 5: Connect (lines 299-333).
    [connectToDevice] is how the awaited [manager.connectToDevice(...)] ends. *)
Definition runConnect (device : DiscoveredDevice) (connectToDevice : result Device)
    (st : AppState) : AppState :=
  match bleManagerRef st with
  | None =>
      let st := addLog Connect "ERROR: No BleManager" st in
      setStatus Connect fail st
  | Some manager =>
      let st := setStatus Connect running st in
      let st := setLogs Connect [] st in
      let st := addLog Connect ("Connecting to " ++ orElse (name device) (id device)
                                ++ "...") st in
      match connectToDevice with
      | Ok connected =>
          let st := setConnectedRef (Some connected) st in
          let st := addLog Connect ("Connected! MTU: " ++ show (dev_mtu connected)) st in
          let st := addLog Connect ("Device ID: " ++ dev_id connected) st in
          let st := addLog Connect ("Device name: "
                                    ++ orElse (dev_name connected) "(null)") st in
          setStatus Connect pass st
      | Throw error =>
          let st := addLog Connect ("Connection FAILED: " ++ err_message error) st in
          let st :=
            match err_code error with
            | Some c => if Z.eqb c 0 then st
                        else addLog Connect ("Error code: " ++ show c) st
            | None => st
            end in
          setStatus Connect fail st
      end
  end.

(** *** Step 6: Discover Services (lines 336-373) *)

Definition charProps (char : Characteristic) : list string :=
  (if isReadable char then ["Read"] else [])
  ++ (if isWritableWithResponse char then ["Write"] else [])
  ++ (if isWritableWithoutResponse char then ["WriteNoResp"] else [])
  ++ (if isNotifiable char then ["Notify"] else [])
  ++ (if isIndicatable char then ["Indicate"] else []).

Definition logChar (st : AppState) (char : Characteristic) : AppState :=
  addLog Discover ("    Char: " ++ char_uuid char ++ " [" ++ join ", " (charProps char)
                   ++ "]") st.

(** The loop over the services (lines 354-366); it stops at the first
    [characteristics()] that throws and hands the error to the [catch]. *)
Fixpoint logServices (services : list Service) (st : AppState)
  : AppState * option Error :=
  match services with
  | [] => (st, None)
  | service :: rest =>
      let st := addLog Discover (nl ++ "  Service: " ++ svc_uuid service) st in
      match characteristics service with
      | Throw e => (st, Some e)
      | Ok chars => logServices rest (fold_left logChar chars st)
      end
  end.

Definition discoveryFailed (error : Error) (st : AppState) : AppState :=
  let st := addLog Discover ("Discovery FAILED: " ++ err_message error) st in
  setStatus Discover fail st.

(** [discovered] is how the two awaited calls
    [device.discoverAllServicesAndCharacteristics()] and [.services()] end. *)
Definition runDiscoverServices (discovered : result (list Service)) (st : AppState)
  : AppState :=
  match connectedDeviceRef st with
  | None =>
      let st := addLog Discover "ERROR: No connected device — run Step 5 first" st in
      setStatus Discover fail st
  | Some device =>
      let st := setStatus Discover running st in
      let st := setLogs Discover [] st in
      let st := addLog Discover "Discovering all services and characteristics..." st in
      match discovered with
      | Throw error => discoveryFailed error st
      | Ok services =>
          let st := addLog Discover ("Found " ++ show (Z.of_nat (List.length services))
                                     ++ " service(s):") st in
          match logServices services st with
          | (st, None) => setStatus Discover pass st
          | (st, Some error) => discoveryFailed error st
          end
      end
  end.

(** *** Step 7: Validate expected characteristics (lines 376-433) *)

(** The [expected] array: [uuid] and [name] of each entry. *)
Definition expected : list (string * string) :=
  [ (STATUS_CHAR_UUID, "Status (FFE1)");
    (COMMAND_CHAR_UUID, "Command (FFE2)");
    (RESPONSE_CHAR_UUID, "Response (FFE3)") ].

Definition expectedLine (found : bool) (exp : string * string) : string :=
  "  " ++ (if found then "FOUND" else "MISSING") ++ ": " ++ snd exp
       ++ " (" ++ fst exp ++ ")".

(** One turn of the loop over [expected] (lines 412-416). *)
Definition checkExpected (charUUIDs : list string) (acc : bool * AppState)
    (exp : string * string) : bool * AppState :=
  let '(allFound, st) := acc in
  let found := includes charUUIDs (toUpperCase (fst exp)) in
  let st := addLog Validate (expectedLine found exp) st in
  (if found then allFound else false, st).

Definition isExtra (c : Characteristic) : bool :=
  negb (includes (map (fun e => toUpperCase (fst e)) expected)
                 (toUpperCase (char_uuid c))).

Definition logExtras (extras : list Characteristic) (st : AppState) : AppState :=
  match extras with
  | [] => st
  | _ :: _ =>
      let st := addLog Validate (nl ++ "Extra characteristics on this service:") st in
      fold_left (fun st c => addLog Validate ("  " ++ char_uuid c) st) extras st
  end.

Definition validationFailed (error : Error) (st : AppState) : AppState :=
  let st := addLog Validate ("Validation FAILED: " ++ err_message error) st in
  setStatus Validate fail st.

Definition isTarget (s : Service) : bool :=
  String.eqb (toUpperCase (svc_uuid s)) (toUpperCase SERVICE_UUID).

(** [deviceServices] is how the awaited [device.services()] ends. *)
Definition runValidateChars (deviceServices : result (list Service)) (st : AppState)
  : AppState :=
  match connectedDeviceRef st with
  | None =>
      let st := addLog Validate "ERROR: No connected device" st in
      setStatus Validate fail st
  | Some device =>
      let st := setStatus Validate running st in
      let st := setLogs Validate [] st in
      let st := addLog Validate ("Looking for service " ++ SERVICE_UUID ++ "...") st in
      match deviceServices with
      | Throw error => validationFailed error st
      | Ok services =>
          match find isTarget services with
          | None =>
              let st := addLog Validate ("Service " ++ SERVICE_UUID ++ " NOT FOUND") st in
              let st := addLog Validate ("Available services: "
                                         ++ join ", " (map svc_uuid services)) st in
              setStatus Validate fail st
          | Some targetService =>
              let st := addLog Validate "Service found! Checking characteristics..." st in
              match characteristics targetService with
              | Throw error => validationFailed error st
              | Ok chars =>
                  let charUUIDs := map (fun c => toUpperCase (char_uuid c)) chars in
                  let '(allFound, st) :=
                    fold_left (checkExpected charUUIDs) expected (true, st) in
                  let extras := filter isExtra chars in
                  let st := logExtras extras st in
                  setStatus Validate (if allFound then pass else fail) st
              end
          end
      end
  end.

(** *** The Disconnect button (lines 619-637).
    [cancelConnection] is how the awaited call ends when there is a device to
    call it on; the assignments sit inside the [try], after the [await]. *)
Definition onDisconnect (cancelConnection : result unit) (st : AppState) : AppState :=
  let awaited :=
    match connectedDeviceRef st with
    | Some device => cancelConnection
    | None => Ok tt
    end in
  match awaited with
  | Ok _ =>
      let st := setConnectedRef None st in
      let st := setStatus Connect pending st in
      let st := setLogs Connect [] st in
      let st := setStatus Discover pending st in
      let st := setLogs Discover [] st in
      let st := setStatus Validate pending st in
      setLogs Validate [] st
  | Throw _ => st
  end.

(** *** Everything that can run, as one type *)

Inductive Event :=
| EvCreateManager (alloc : result unit)
| EvCheckState
| EvStateResolved (state : State)
| EvStateListener (sub : nat) (newState : State)
| EvStateTimeout (stateStatus : StepStatus) (sub : nat)
| EvUnfilteredScan
| EvScanListener (seen : Map DiscoveredDevice) (error : option BleError)
                 (device : option Device)
| EvScanTimeout (seen : Map DiscoveredDevice)
| EvFilteredScan
| EvFilteredScanListener (seen : Map DiscoveredDevice) (error : option BleError)
                         (device : option Device)
| EvFilteredScanTimeout (seen : Map DiscoveredDevice)
| EvConnect (device : DiscoveredDevice) (connectToDevice : result Device)
| EvDiscoverServices (discovered : result (list Service))
| EvValidateChars (deviceServices : result (list Service)).

(** The step an event belongs to. *)
Definition stepOf (e : Event) : StepId :=
  match e with
  | EvCreateManager _ => Create
  | EvCheckState | EvStateResolved _ | EvStateListener _ _ | EvStateTimeout _ _ => CheckState
  | EvUnfilteredScan | EvScanListener _ _ _ | EvScanTimeout _ => Scan
  | EvFilteredScan | EvFilteredScanListener _ _ _ | EvFilteredScanTimeout _ => FilteredScan
  | EvConnect _ _ => Connect
  | EvDiscoverServices _ => Discover
  | EvValidateChars _ => Validate
  end.

(** The events that are a step's trigger (a button press or a tap). *)
Definition isTrigger (e : Event) : bool :=
  match e with
  | EvCreateManager _ | EvCheckState | EvUnfilteredScan | EvFilteredScan
  | EvConnect _ _ | EvDiscoverServices _ | EvValidateChars _ => true
  | _ => false
  end.

Definition handle (e : Event) (st : AppState) : AppState :=
  match e with
  | EvCreateManager alloc => runCreateManager alloc st
  | EvCheckState => fst (runCheckState st)
  | EvStateResolved state => fst (onStateResolved state st)
  | EvStateListener sub newState => stateListener sub newState st
  | EvStateTimeout stateStatus sub => stateTimeout stateStatus sub st
  | EvUnfilteredScan => fst (runUnfilteredScan st)
  | EvScanListener seen error device => snd (scanListener error device (seen, st))
  | EvScanTimeout seen => scanTimeout seen st
  | EvFilteredScan => fst (runFilteredScan st)
  | EvFilteredScanListener seen error device =>
      snd (filteredScanListener error device (seen, st))
  | EvFilteredScanTimeout seen => filteredScanTimeout seen st
  | EvConnect device connectToDevice => runConnect device connectToDevice st
  | EvDiscoverServices discovered => runDiscoverServices discovered st
  | EvValidateChars deviceServices => runValidateChars deviceServices st
  end.

(** What a step needs before it gets past its guard: a manager for steps 2-5,
    a connected device for steps 6 and 7. *)
Definition prerequisite (k : StepId) (st : AppState) : bool :=
  match k with
  | Create => true
  | CheckState | Scan | FilteredScan | Connect =>
      match bleManagerRef st with Some _ => true | None => false end
  | Discover | Validate =>
      match connectedDeviceRef st with Some _ => true | None => false end
  end.

(** The state of a freshly mounted component (lines 66-93). *)
Definition initialState (p : Platform) : AppState :=
  mkApp None None
        (mkCells pending pending pending pending pending pending pending)
        (mkCells [] [] [] [] [] [] []) [] [] Unknown p.

Definition freshPlatform : Platform :=
  mkPlatform (fun _ => "00:00:00.000") 0 [] 0 [] false.

(** ** Notions used to state the properties *)

(** [frame k st st']: outside step [k], statuses and logs are those of [st]. *)
Definition frame (k : StepId) (st st' : AppState) : Prop :=
  forall j, j <> k -> status st' j = status st j /\ logs st' j = logs st j.

(** A trigger resets its own slot: what the slot holds afterwards does not
    depend on what it held before. *)
Definition resetsOwnSlot (e : Event) (st : AppState) : Prop :=
  forall (l : list LogEntry) (s : StepStatus),
    let k := stepOf e in
    let st0 := setLogs k l (setStatus k s st) in
    logs (handle e st0) k = logs (handle e st) k
    /\ status (handle e st0) k = status (handle e st) k.

(** Two UUID strings that differ at most in letter case. *)
Definition sameCase (a b : string) : Prop := toUpperCase a = toUpperCase b.



(** The devices a window's callbacks deliver: the library hands the listener
    a device only together with a null error. *)
Definition delivered (cbs : list Callback) : list Device :=
  flat_map (fun cb => match cb with
                      | (None, Some d) => [d]
                      | _ => []
                      end) cbs.

(** The identifiers of a list in order of first appearance. *)
Fixpoint firstSeen (ids : list string) : list string :=
  match ids with
  | [] => []
  | i :: r => i :: filter (fun j => negb (String.eqb j i)) (firstSeen r)
  end.

(** The first device of a list that carries identifier [i]. *)
Definition firstWith (i : string) (ds : list Device) : option Device :=
  find (fun d => String.eqb (dev_id d) i) ds.

Definition errorFree (cbs : list Callback) : Prop :=
  Forall (fun cb => fst cb = None) cbs.

(** What one callback does to the [seen] map; both listeners share it. *)
Definition seenStep (seen : Map DiscoveredDevice) (cb : Callback) : Map DiscoveredDevice :=
  match cb with
  | (None, Some d) =>
      if has seen (dev_id d) then seen else set seen (dev_id d) (toEntry d)
  | _ => seen
  end.

(** Some callback of the window carried a device. *)
Definition observed (cbs : list Callback) : bool :=
  existsb (fun cb => match snd cb with Some _ => true | None => false end) cbs.

(** Every entry of the map sits under its own identifier. *)
Definition keyedById (seen : Map DiscoveredDevice) : Prop :=
  Forall (fun kv => id (snd kv) = fst kv) seen.

(** The component right after its mount effect has run Step 1. *)
Definition mounted : AppState := runCreateManager (Ok tt) (initialState freshPlatform).

(** [seen] and the displayed list [shown] hold exactly the identifiers [ids],
    once each, in order of first appearance. *)
Definition dedupOf (ids : list string) (seen : Map DiscoveredDevice)
    (shown : list DiscoveredDevice) : Prop :=
  shown = values seen
  /\ map id shown = firstSeen ids
  /\ keys seen = firstSeen ids
  /\ NoDup (keys seen)
  /\ NoDup (map id shown)
  /\ (forall i, In i (map id shown) <-> In i ids)
  /\ size seen = List.length (map id shown).




(** ** Sample inputs *)

Definition sampleDevice : Device :=
  mkDevice "AA:BB:CC:DD:EE:01" (Some "ESP32-WiFi-1234") None (Some (-40)%Z)
           (Some ["0000ffe0-0000-1000-8000-00805f9b34fb"]) 23.

Definition sampleError : BleError := mkBleError 600 "Bluetooth is powered off".

Definition sampleChar (uuid : string) : Characteristic :=
  mkChar uuid true true false true false.

(** A provisioning service with the three characteristics in lower case and
    one more. *)
Definition sampleService : Service :=
  mkService "0000ffe0-0000-1000-8000-00805f9b34fb"
            (Ok [ sampleChar "0000ffe1-0000-1000-8000-00805f9b34fb";
                  sampleChar "0000ffe2-0000-1000-8000-00805f9b34fb";
                  sampleChar "0000ffe3-0000-1000-8000-00805f9b34fb";
                  sampleChar "00002a00-0000-1000-8000-00805f9b34fb" ]).

(** The component after Step 1 and a successful Step 5. *)
Definition connected : AppState :=
  runConnect (toEntry sampleDevice) (Ok sampleDevice) mounted.

(** ** The rest of the screen *)

(** *** What the buttons allow (lines 522-526, 546-553, 586-590, 606-610, 619) *)

(** [disabled={scanStatus === 'running'}] *)
Definition scanButtonEnabled (st : AppState) : bool :=
  negb (StepStatus_eqb (scanStatus st) running).

(** [disabled={filteredScanStatus === 'running'}] *)
Definition filteredScanButtonEnabled (st : AppState) : bool :=
  negb (StepStatus_eqb (filteredScanStatus st) running).

(** [disabled={connectStatus !== 'pass'}] *)
Definition discoverButtonEnabled (st : AppState) : bool :=
  StepStatus_eqb (connectStatus st) pass.

(** [disabled={discoverStatus !== 'pass'}] *)
Definition validateButtonEnabled (st : AppState) : bool :=
  StepStatus_eqb (discoverStatus st) pass.

(** [{connectStatus === 'pass' && (<TouchableOpacity ...>Disconnect ...)}] *)
Definition disconnectButtonShown (st : AppState) : bool :=
  StepStatus_eqb (connectStatus st) pass.



(** *** The [expanded] object and [toggleSection] (lines 96-104, 113-115).
    The object is modelled by its own properties, in their order.  The screen
    only ever passes one of the seven keys the object starts with; for a key
    the object does not have, JavaScript would read [prev[key]] through the
    prototype and could place the new key before the others, which this model
    does not follow. *)

(** An own property read as a condition. *)
Definition truthy (o : option bool) : bool :=
  match o with Some b => b | None => false end.

Definition initialExpanded : Map bool :=
  [ ("create", true); ("state", true); ("scan", true); ("filteredScan", true);
    ("connect", true); ("discover", true); ("validate", true) ].

(** [{ ...prev, [key]: !prev[key] }], for a [key] that [prev] has. *)
Definition toggleSection (key : string) (prev : Map bool) : Map bool :=
  set prev key (negb (truthy (get prev key))).

(** [expanded.create && (...)]: whether a card shows its body. *)
Definition isExpanded (expanded : Map bool) (key : string) : bool :=
  truthy (get expanded key).

(** *** The asynchronous handlers, cut where they suspend.
    Steps 5, 6 and 7 and the Disconnect press are [async]: each runs up to an
    [await], and what follows the [await] runs later, after whatever else ran
    in between. *)

(** Step 5 up to its [await] (lines 301-311); the flag tells whether
    [connectToDevice] was called. *)
Definition connectStart (device : DiscoveredDevice) (st : AppState) : AppState * bool :=
  match bleManagerRef st with
  | None =>
      let st := addLog Connect "ERROR: No BleManager" st in
      (setStatus Connect fail st, false)
  | Some manager =>
      let st := setStatus Connect running st in
      let st := setLogs Connect [] st in
      let st := addLog Connect ("Connecting to " ++ orElse (name device) (id device)
                                ++ "...") st in
      (st, true)
  end.

(** Step 5 after its [await] (lines 317-329). *)
Definition connectSettled (connectToDevice : result Device) (st : AppState) : AppState :=
  match connectToDevice with
  | Ok connected =>
      let st := setConnectedRef (Some connected) st in
      let st := addLog Connect ("Connected! MTU: " ++ show (dev_mtu connected)) st in
      let st := addLog Connect ("Device ID: " ++ dev_id connected) st in
      let st := addLog Connect ("Device name: "
                                ++ orElse (dev_name connected) "(null)") st in
      setStatus Connect pass st
  | Throw error =>
      let st := addLog Connect ("Connection FAILED: " ++ err_message error) st in
      let st :=
        match err_code error with
        | Some c => if Z.eqb c 0 then st
                    else addLog Connect ("Error code: " ++ show c) st
        | None => st
        end in
      setStatus Connect fail st
  end.

(** Step 6 up to its first [await] (lines 337-346); the flag tells whether
    the discovery was started. *)
Definition discoverStart (st : AppState) : AppState * bool :=
  match connectedDeviceRef st with
  | None =>
      let st := addLog Discover "ERROR: No connected device — run Step 5 first" st in
      (setStatus Discover fail st, false)
  | Some device =>
      let st := setStatus Discover running st in
      let st := setLogs Discover [] st in
      let st := addLog Discover "Discovering all services and characteristics..." st in
      (st, true)
  end.

(** Step 7 up to its first [await] (lines 377-386). *)
Definition validateStart (st : AppState) : AppState * bool :=
  match connectedDeviceRef st with
  | None =>
      let st := addLog Validate "ERROR: No connected device" st in
      (setStatus Validate fail st, false)
  | Some device =>
      let st := setStatus Validate running st in
      let st := setLogs Validate [] st in
      let st := addLog Validate ("Looking for service " ++ SERVICE_UUID ++ "...") st in
      (st, true)
  end.

(** The Disconnect press after its [await] (lines 625-632): [awaited] is how
    the awaited expression ended. *)
Definition disconnectSettled (awaited : result unit) (st : AppState) : AppState :=
  match awaited with
  | Ok _ =>
      let st := setConnectedRef None st in
      let st := setStatus Connect pending st in
      let st := setLogs Connect [] st in
      let st := setStatus Discover pending st in
      let st := setLogs Discover [] st in
      let st := setStatus Validate pending st in
      setLogs Validate [] st
  | Throw _ => st
  end.

(** *** Everything that can happen to the mounted screen.
    [Act] runs a synchronous handler, a listener or a timer, or a whole
    asynchronous handler with nothing in between.  The other actions are the
    parts of the asynchronous handlers: [ConnectStart] and [ConnectSettled]
    for step 5, [DisconnectSettled] for the Disconnect press, and for steps 6
    and 7 the start followed, after the [await]s, by the only writes those two
    handlers then make (lines 352-371 and 390-431): [addLog] on their own log
    and their own status setter. *)
Inductive Action :=
| Act (e : Event)
| ConnectStart (device : DiscoveredDevice)
| ConnectSettled (connectToDevice : result Device)
| DiscoverStart
| ValidateStart
| Log (k : StepId) (msg : string)
| DiscoverStatus (v : StepStatus)
| ValidateStatus (v : StepStatus)
| Disconnect (cancelConnection : result unit)
| DisconnectSettled (awaited : result unit)
| TeardownDone (h : nat).

Definition perform (st : AppState) (a : Action) : AppState :=
  match a with
  | Act e => handle e st
  | ConnectStart device => fst (connectStart device st)
  | ConnectSettled connectToDevice => connectSettled connectToDevice st
  | DiscoverStart => fst (discoverStart st)
  | ValidateStart => fst (validateStart st)
  | Log k msg => addLog k msg st
  | DiscoverStatus v => setStatus Discover v st
  | ValidateStatus v => setStatus Validate v st
  | Disconnect cancelConnection => onDisconnect cancelConnection st
  | DisconnectSettled awaited => disconnectSettled awaited st
  | TeardownDone h => teardownDone h st
  end.

Definition run (acts : list Action) (st : AppState) : AppState :=
  fold_left perform acts st.

(** The writes step 6 makes after its [await]s (lines 352-371), in order. *)
Definition discoveryFailedWrites (error : Error) : list Action :=
  [ Log Discover ("Discovery FAILED: " ++ err_message error); DiscoverStatus fail ].

Fixpoint serviceWrites (services : list Service) : list Action :=
  match services with
  | [] => [DiscoverStatus pass]
  | service :: rest =>
      Log Discover (nl ++ "  Service: " ++ svc_uuid service)
      :: match characteristics service with
         | Throw e => discoveryFailedWrites e
         | Ok chars =>
             (map (fun char => Log Discover ("    Char: " ++ char_uuid char ++ " ["
                                             ++ join ", " (charProps char) ++ "]")) chars
              ++ serviceWrites rest)%list
         end
  end.

Definition discoverWrites (discovered : result (list Service)) : list Action :=
  match discovered with
  | Throw error => discoveryFailedWrites error
  | Ok services =>
      Log Discover ("Found " ++ show (Z.of_nat (List.length services)) ++ " service(s):")
      :: serviceWrites services
  end.

(** The writes step 7 makes after its first [await] (lines 390-431), in order. *)
Definition validationFailedWrites (error : Error) : list Action :=
  [ Log Validate ("Validation FAILED: " ++ err_message error); ValidateStatus fail ].

Definition extrasWrites (extras : list Characteristic) : list Action :=
  match extras with
  | [] => []
  | _ :: _ =>
      Log Validate (nl ++ "Extra characteristics on this service:")
      :: map (fun c => Log Validate ("  " ++ char_uuid c)) extras
  end.

Definition validateWrites (deviceServices : result (list Service)) : list Action :=
  match deviceServices with
  | Throw error => validationFailedWrites error
  | Ok services =>
      match find isTarget services with
      | None =>
          [ Log Validate ("Service " ++ SERVICE_UUID ++ " NOT FOUND");
            Log Validate ("Available services: " ++ join ", " (map svc_uuid services));
            ValidateStatus fail ]
      | Some targetService =>
          Log Validate "Service found! Checking characteristics..."
          :: match characteristics targetService with
             | Throw error => validationFailedWrites error
             | Ok chars =>
                 let charUUIDs := map (fun c => toUpperCase (char_uuid c)) chars in
                 let found := fun exp : string * string =>
                                includes charUUIDs (toUpperCase (fst exp)) in
                 (map (fun exp => Log Validate (expectedLine (found exp) exp)) expected
                  ++ extrasWrites (filter isExtra chars)
                  ++ [ValidateStatus (if forallb found expected then pass else fail)])%list
             end
      end
  end.

(** *** The mount effect (lines 436-442): step 1 at once, then, 500 ms later,
    step 2 through the [runCheckState] of the first render; [state] is what
    [manager.state()] then resolves to. *)
Definition mountEffect (alloc : result unit) (state : State) (p : Platform)
  : AppState * option nat :=
  checkStateRun state (runCreateManager alloc (initialState p)).

(** ** The provisioning screen (src/app/provision.tsx) *)

Module Provision.

(** What the component returns (lines 143-177). *)
Inductive View :=
| Checking
| Unavailable (message : string)
| Navigator.

(** [BLE_STATE_MESSAGES] (lines 14-20): a partial record. *)
Definition BLE_STATE_MESSAGES (s : State) : option string :=
  match s with
  | Unsupported => Some "This device does not support Bluetooth Low Energy."
  | Unauthorized =>
      Some "Bluetooth permission has not been granted. Please enable it in Settings."
  | PoweredOff => Some "Bluetooth is turned off. Please enable Bluetooth to continue."
  | _ => None
  end.

(** The two state cells, the locals of the effect ([cancelled], [cleanupRef],
    the temporary manager with its life-cycle), and what has been asked of
    the library so far: [started] tells that [init] has got past its await,
    [removeCalls] and [destroyCalls] count the calls of
    [subscription.remove()] and [manager.destroy()], [pendingThen] counts the
    [destroy()] promises that carry the [.then] continuation and have not
    settled yet. *)
Record Screen := mkScreen {
  bleState : State;
  checking : bool;
  cancelled : bool;
  cleanupRef : bool;
  manager : option Lifecycle;
  started : bool;
  removeCalls : nat;
  destroyCalls : nat;
  pendingThen : nat
}.

(** [useState(State.Unknown)], [useState(true)], [let cancelled = false],
    [let cleanupRef = null]. *)
Definition initial : Screen := mkScreen Unknown true false false None false 0 0 0.

(** [state !== State.Unknown && state !== State.Resetting] *)
Definition definitive (state : State) : bool :=
  match state with
  | Unknown | Resetting => false
  | _ => true
  end.

(** Modelled from the spec: [manager.destroy()] on the library side starts the
    teardown of a live manager; a manager already torn down stays so. *)
Definition destroyed (m : option Lifecycle) : option Lifecycle :=
  match m with
  | Some Alive => Some TearingDown
  | other => other
  end.

(** [init] from the point where its await returns (lines 102-130). *)
Definition init (s : Screen) : Screen :=
  if cancelled s then
    mkScreen (bleState s) (checking s) (cancelled s) (cleanupRef s) (manager s) true
             (removeCalls s) (destroyCalls s) (pendingThen s)
  else
    mkScreen (bleState s) (checking s) (cancelled s) true (Some Alive) true
             (removeCalls s) (destroyCalls s) (pendingThen s).

(** The listener given to [onStateChange] (lines 108-123). *)
Definition listener (state : State) (s : Screen) : Screen :=
  if cancelled s then s
  else if definitive state then
    mkScreen state (checking s) (cancelled s) (cleanupRef s) (destroyed (manager s))
             (started s) (S (removeCalls s)) (S (destroyCalls s)) (S (pendingThen s))
  else
    mkScreen state (checking s) (cancelled s) (cleanupRef s) (manager s)
             (started s) (removeCalls s) (destroyCalls s) (pendingThen s).

(** The promise of the listener's [destroy()] settles and its continuation
    runs (lines 119-121); on the library side the teardown is then complete. *)
Definition destroySettled (s : Screen) : Screen :=
  mkScreen (bleState s) (if cancelled s then checking s else false) (cancelled s)
           (cleanupRef s)
           (match manager s with Some TearingDown => Some Destroyed | other => other end)
           (started s) (removeCalls s) (destroyCalls s) (pred (pendingThen s)).

(** The effect's cleanup (lines 135-138), with [cleanupRef] as [init] set it
    (lines 126-129). *)
Definition unmount (s : Screen) : Screen :=
  if cleanupRef s then
    mkScreen (bleState s) (checking s) true (cleanupRef s) (destroyed (manager s))
             (started s) (S (removeCalls s)) (S (destroyCalls s)) (pendingThen s)
  else
    mkScreen (bleState s) (checking s) true (cleanupRef s) (manager s)
             (started s) (removeCalls s) (destroyCalls s) (pendingThen s).

(** The component body below the effect (lines 143-177). *)
Definition render (s : Screen) : View :=
  if checking s then Checking
  else match BLE_STATE_MESSAGES (bleState s) with
       | Some message => Unavailable message
       | None => Navigator
       end.

Inductive Ev :=
| Init
| Listener (state : State)
| DestroySettled
| Unmount.

(** When the runtime can deliver an event: [init] resumes once; the library
    calls the listener only while its subscription exists and has not been
    removed; a continuation runs only for a pending promise; a component
    unmounts once. *)
Definition enabled (s : Screen) (e : Ev) : bool :=
  match e with
  | Init => negb (started s)
  | Listener _ => cleanupRef s && Nat.eqb (removeCalls s) 0
  | DestroySettled => Nat.ltb 0 (pendingThen s)
  | Unmount => negb (cancelled s)
  end.

Definition step (s : Screen) (e : Ev) : Screen :=
  if enabled s e then
    match e with
    | Init => init s
    | Listener state => listener state s
    | DestroySettled => destroySettled s
    | Unmount => unmount s
    end
  else s.

Definition run (evs : list Ev) : Screen := fold_left step evs initial.

(** What holds of every reachable screen. *)
Definition invariant (s : Screen) : Prop :=
  (started s = false ->
     cleanupRef s = false /\ manager s = None /\ pendingThen s = 0%nat
     /\ removeCalls s = 0%nat /\ checking s = true)
  /\ (cleanupRef s = false ->
       manager s = None /\ pendingThen s = 0%nat /\ removeCalls s = 0%nat
       /\ destroyCalls s = 0%nat /\ checking s = true)
  /\ (cleanupRef s = true -> removeCalls s = 0%nat ->
       manager s = Some Alive /\ pendingThen s = 0%nat /\ checking s = true
       /\ cancelled s = false /\ destroyCalls s = 0%nat)
  /\ ((0 < pendingThen s)%nat ->
       manager s = Some TearingDown /\ definitive (bleState s) = true
       /\ checking s = true /\ pendingThen s = 1%nat)
  /\ (checking s = false ->
       manager s = Some Destroyed /\ definitive (bleState s) = true
       /\ pendingThen s = 0%nat)
  /\ (destroyCalls s <= 2)%nat
  /\ (cancelled s = false -> destroyCalls s <= 1)%nat.

End Provision.

(** ** Further notions *)

(** [st'] differs from [st] at most in statuses, logs and the clock reading:
    refs, device lists, adapter state, handles, subscriptions and the scan
    are the same. *)
Definition onlyLogged (st st' : AppState) : Prop :=
  bleManagerRef st' = bleManagerRef st
  /\ connectedDeviceRef st' = connectedDeviceRef st
  /\ devices st' = devices st
  /\ filteredDevices st' = filteredDevices st
  /\ bleState st' = bleState st
  /\ handles (platform st') = handles (platform st)
  /\ subsCreated (platform st') = subsCreated (platform st)
  /\ subsRemoved (platform st') = subsRemoved (platform st)
  /\ scanning (platform st') = scanning (platform st).

(** The badges agree with the refs: step 1 shows Pass exactly when a manager
    is held, and step 5 shows Pass only when a connected device is. *)
Definition badgesMatchRefs (st : AppState) : Prop :=
  (createStatus st = pass <-> bleManagerRef st <> None)
  /\ (connectStatus st = pass -> connectedDeviceRef st <> None).

(** A handle on which [destroy()] has not been called is the one in
    [bleManagerRef]. *)
Definition onlyRefAlive (st : AppState) : Prop :=
  forall h, lifecycle h st = Some Alive -> bleManagerRef st = Some h.



(** Some callback of the window reported an error. *)
Definition errored (cbs : list Callback) : bool :=
  existsb (fun cb => match fst cb with Some _ => true | None => false end) cbs.

(** The lines step 6 logs for one service whose characteristics are [chars]. *)
Definition charLine (char : Characteristic) : string :=
  "    Char: " ++ char_uuid char ++ " [" ++ join ", " (charProps char) ++ "]".

Definition serviceLine (service : Service) : string :=
  nl ++ "  Service: " ++ svc_uuid service.

Definition charsOf (service : Service) : list Characteristic :=
  match characteristics service with
  | Ok chars => chars
  | Throw _ => []
  end.

Definition serviceLines (service : Service) : list string :=
  serviceLine service :: map charLine (charsOf service).

Definition enumerable (service : Service) : bool :=
  match characteristics service with
  | Ok _ => true
  | Throw _ => false
  end.

(** The line step 2 logs for a state its listener receives (line 176). *)
Definition stateChangedLine (s : State) : string :=
  "State changed to: " ++ State_str s.

(** The listener of subscription [sub] called with the states [ss] in turn. *)
Definition stateListenerFold (sub : nat) (ss : list State) (st : AppState) : AppState :=
  fold_left (fun st s => stateListener sub s st) ss st.

(** More sample inputs. *)
Definition sampleThrow : Error := mkError "Operation timed out" (Some 3%Z).

(** * Properties *)

(** ** Cells and the frame of the primitives *)

Lemma cell_upd_same {A} (c : Cells A) k v : cell (upd c k v) k = v.
Proof. destruct k; reflexivity. Qed.

Lemma cell_upd_other {A} (c : Cells A) k j v : j <> k -> cell (upd c k v) j = cell c j.
Proof. destruct k, j; intros H; try reflexivity; congruence. Qed.

Lemma upd_upd {A} (c : Cells A) k v w : upd (upd c k v) k w = upd c k w.
Proof. destruct k; reflexivity. Qed.

Lemma frame_refl k st : frame k st st.
Proof. intros j _; split; reflexivity. Qed.

Lemma frame_quiet k st0 st st' :
  statusCells st' = statusCells st -> logCells st' = logCells st ->
  frame k st0 st -> frame k st0 st'.
Proof.
  intros Hs Hl H j Hj. destruct (H j Hj) as [H1 H2].
  unfold status, logs in *. rewrite Hs, Hl. split; assumption.
Qed.

Lemma frame_setStatus k v st0 st : frame k st0 st -> frame k st0 (setStatus k v st).
Proof.
  intros H j Hj. destruct (H j Hj) as [H1 H2]. unfold status, logs in *. cbn.
  rewrite cell_upd_other by assumption. split; assumption.
Qed.

Lemma frame_setLogs k v st0 st : frame k st0 st -> frame k st0 (setLogs k v st).
Proof.
  intros H j Hj. destruct (H j Hj) as [H1 H2]. unfold status, logs in *. cbn.
  rewrite cell_upd_other by assumption. split; assumption.
Qed.

Lemma frame_addLog k m st0 st : frame k st0 st -> frame k st0 (addLog k m st).
Proof.
  intros H j Hj. destruct (H j Hj) as [H1 H2]. unfold status, logs, addLog in *. cbn.
  rewrite cell_upd_other by assumption. split; assumption.
Qed.

Lemma frame_setManagerRef k m st0 st : frame k st0 st -> frame k st0 (setManagerRef m st).
Proof. apply frame_quiet; reflexivity. Qed.

Lemma frame_setConnectedRef k d st0 st : frame k st0 st -> frame k st0 (setConnectedRef d st).
Proof. apply frame_quiet; reflexivity. Qed.

Lemma frame_setDevices k v st0 st : frame k st0 st -> frame k st0 (setDevices v st).
Proof. apply frame_quiet; reflexivity. Qed.

Lemma frame_setFilteredDevices k v st0 st :
  frame k st0 st -> frame k st0 (setFilteredDevices v st).
Proof. apply frame_quiet; reflexivity. Qed.

Lemma frame_setBleState k v st0 st : frame k st0 st -> frame k st0 (setBleState v st).
Proof. apply frame_quiet; reflexivity. Qed.

Lemma frame_setPlatform k p st0 st : frame k st0 st -> frame k st0 (setPlatform p st).
Proof. apply frame_quiet; reflexivity. Qed.

Lemma frame_destroy k h st0 st : frame k st0 st -> frame k st0 (destroy h st).
Proof. apply frame_quiet; reflexivity. Qed.

Lemma frame_remove k s st0 st : frame k st0 st -> frame k st0 (remove s st).
Proof. apply frame_quiet; reflexivity. Qed.

Lemma frame_setScanning k b st0 st : frame k st0 st -> frame k st0 (setScanning b st).
Proof. apply frame_quiet; reflexivity. Qed.

(** Peels the updates of a handler off its result, splitting on every
    [match] or [if] on the way.  The updates are recognised by their head,
    never by unfolding. *)
Ltac frame_step :=
  lazymatch goal with
  | |- frame _ ?s ?s => apply frame_refl
  | H : frame ?k ?a ?b |- frame ?k ?a ?b => exact H
  | |- frame _ _ (setStatus _ _ _) => apply frame_setStatus
  | |- frame _ _ (setLogs _ _ _) => apply frame_setLogs
  | |- frame _ _ (addLog _ _ _) => apply frame_addLog
  | |- frame _ _ (setManagerRef _ _) => apply frame_setManagerRef
  | |- frame _ _ (setConnectedRef _ _) => apply frame_setConnectedRef
  | |- frame _ _ (setDevices _ _) => apply frame_setDevices
  | |- frame _ _ (setFilteredDevices _ _) => apply frame_setFilteredDevices
  | |- frame _ _ (setBleState _ _) => apply frame_setBleState
  | |- frame _ _ (setPlatform _ _) => apply frame_setPlatform
  | |- frame _ _ (destroy _ _) => apply frame_destroy
  | |- frame _ _ (remove _ _) => apply frame_remove
  | |- frame _ _ (setScanning _ _) => apply frame_setScanning
  | |- context [match ?x with _ => _ end] => destruct x eqn:?
  end.

Ltac frame_tac := repeat first [ progress cbn beta iota zeta delta [fst snd] | frame_step ].

Lemma frame_newBleManager k st0 st :
  frame k st0 st -> frame k st0 (snd (newBleManager st)).
Proof.
  unfold newBleManager. destruct (sharedInstance st); cbn [snd].
  - trivial.
  - apply frame_setPlatform.
Qed.

Lemma frame_runCreateManager alloc st : frame Create st (runCreateManager alloc st).
Proof.
  unfold runCreateManager. destruct alloc.
  - match goal with
    | |- context [newBleManager ?x] =>
        assert (Hnew : frame Create st (snd (newBleManager x)))
          by (apply frame_newBleManager; frame_tac);
        destruct (newBleManager x)
    end.
    cbn [snd] in Hnew. frame_tac.
  - frame_tac.
Qed.

Lemma frame_runCheckState st : frame CheckState st (fst (runCheckState st)).
Proof. unfold runCheckState. frame_tac. Qed.

Lemma frame_onStateResolved s st : frame CheckState st (fst (onStateResolved s st)).
Proof. unfold onStateResolved, onStateChange. frame_tac. Qed.

Lemma frame_stateListener sub s st : frame CheckState st (stateListener sub s st).
Proof. unfold stateListener. frame_tac. Qed.

Lemma frame_stateTimeout captured sub st :
  frame CheckState st (stateTimeout captured sub st).
Proof. unfold stateTimeout. frame_tac. Qed.

Lemma frame_runUnfilteredScan st : frame Scan st (fst (runUnfilteredScan st)).
Proof. unfold runUnfilteredScan, startDeviceScan. frame_tac. Qed.

Lemma frame_scanListener error device seen st :
  frame Scan st (snd (scanListener error device (seen, st))).
Proof. unfold scanListener. frame_tac. Qed.

Lemma frame_scanTimeout seen st : frame Scan st (scanTimeout seen st).
Proof. unfold scanTimeout, stopDeviceScan. frame_tac. Qed.

Lemma frame_runFilteredScan st : frame FilteredScan st (fst (runFilteredScan st)).
Proof. unfold runFilteredScan, startDeviceScan. frame_tac. Qed.

Lemma frame_filteredScanListener error device seen st :
  frame FilteredScan st (snd (filteredScanListener error device (seen, st))).
Proof. unfold filteredScanListener. frame_tac. Qed.

Lemma frame_filteredScanTimeout seen st :
  frame FilteredScan st (filteredScanTimeout seen st).
Proof. unfold filteredScanTimeout, stopDeviceScan. frame_tac. Qed.

Lemma frame_runConnect device outcome st : frame Connect st (runConnect device outcome st).
Proof. unfold runConnect. frame_tac. Qed.

Lemma frame_logChars chars : forall st0 st,
  frame Discover st0 st -> frame Discover st0 (fold_left logChar chars st).
Proof.
  induction chars as [|c chars IH]; intros st0 st H; cbn; [assumption|].
  apply IH. unfold logChar. frame_tac.
Qed.

Lemma frame_logServices services : forall st0 st,
  frame Discover st0 st -> frame Discover st0 (fst (logServices services st)).
Proof.
  induction services as [|s services IH]; intros st0 st H; cbn; [assumption|].
  destruct (characteristics s) as [chars|e]; cbn.
  - apply IH, frame_logChars. frame_tac.
  - frame_tac.
Qed.

Lemma frame_runDiscoverServices discovered st :
  frame Discover st (runDiscoverServices discovered st).
Proof.
  unfold runDiscoverServices, discoveryFailed.
  destruct (connectedDeviceRef st); [|frame_tac].
  destruct discovered as [services|e]; [|frame_tac].
  match goal with
  | |- context [logServices ?l ?s] =>
      pose proof (@frame_logServices l st s) as H; destruct (logServices l s) as [st' [e|]]
  end; cbn in *; frame_tac; apply H; frame_tac.
Qed.

Lemma frame_checkExpected uuids exps : forall st0 b st,
  frame Validate st0 st ->
  frame Validate st0 (snd (fold_left (checkExpected uuids) exps (b, st))).
Proof.
  induction exps as [|e exps IH]; intros st0 b st H; cbn; [assumption|].
  apply IH. unfold checkExpected. frame_tac.
Qed.

Lemma frame_logExtras extras st0 st :
  frame Validate st0 st -> frame Validate st0 (logExtras extras st).
Proof.
  unfold logExtras. destruct extras as [|c0 r]; [auto|].
  generalize (c0 :: r) as l. intros l H.
  assert (G : forall l s, frame Validate st0 s ->
            frame Validate st0
              (fold_left (fun st c => addLog Validate ("  " ++ char_uuid c) st) l s)).
  { clear. induction l as [|c l IH]; intros s H; cbn; [assumption|].
    apply IH. frame_tac. }
  apply G. frame_tac.
Qed.

Lemma frame_runValidateChars outcome st :
  frame Validate st (runValidateChars outcome st).
Proof.
  unfold runValidateChars, validationFailed.
  destruct (connectedDeviceRef st); [|frame_tac].
  destruct outcome as [services|e]; [|frame_tac].
  destruct (find isTarget services) as [target|]; [|frame_tac].
  destruct (characteristics target) as [chars|e]; [|frame_tac].
  match goal with
  | |- context [fold_left ?f ?l (?b, ?s)] =>
      pose proof (@frame_checkExpected
                    (map (fun c => toUpperCase (char_uuid c)) chars) l st b s) as H;
      destruct (fold_left f l (b, s)) as [allFound st']
  end.
  cbn in *. apply frame_setStatus, frame_logExtras, H. frame_tac.
Qed.

Lemma frame_handle e st : frame (stepOf e) st (handle e st).
Proof.
  destruct e; cbn [stepOf handle].
  - apply frame_runCreateManager.
  - apply frame_runCheckState.
  - apply frame_onStateResolved.
  - apply frame_stateListener.
  - apply frame_stateTimeout.
  - apply frame_runUnfilteredScan.
  - apply frame_scanListener.
  - apply frame_scanTimeout.
  - apply frame_runFilteredScan.
  - apply frame_filteredScanListener.
  - apply frame_filteredScanTimeout.
  - apply frame_runConnect.
  - apply frame_runDiscoverServices.
  - apply frame_runValidateChars.
Qed.

(** ** Normal form of a state expression *)

(** Unfolds the primitives and projects through the record constructors. *)
Ltac st_norm :=
  lazy beta iota zeta delta
    [addLog timestamp newBleManager destroy onStateChange remove
     startDeviceScan stopDeviceScan setScanning setManagerRef setConnectedRef
     setStatus setLogs setDevices setFilteredDevices setBleState setPlatform
     bleManagerRef connectedDeviceRef statusCells logCells devices filteredDevices
     bleState platform wallClock ticks handles subsCreated subsRemoved scanning
     fst snd] in *.

Lemma reset_absorb k v l s st :
  setLogs k [] (setStatus k v (setLogs k l (setStatus k s st)))
  = setLogs k [] (setStatus k v st).
Proof. st_norm. now rewrite !upd_upd. Qed.

Lemma reset_absorb_create h m v l s st :
  setLogs Create []
    (setStatus Create v
       (setManagerRef None
          (destroy h (addLog Create m (setLogs Create l (setStatus Create s st))))))
  = setLogs Create []
      (setStatus Create v (setManagerRef None (destroy h (addLog Create m st)))).
Proof. st_norm. now rewrite !upd_upd. Qed.

Lemma bleManagerRef_slot k l s st :
  bleManagerRef (setLogs k l (setStatus k s st)) = bleManagerRef st.
Proof. reflexivity. Qed.

Lemma connectedDeviceRef_slot k l s st :
  connectedDeviceRef (setLogs k l (setStatus k s st)) = connectedDeviceRef st.
Proof. reflexivity. Qed.

(** A trigger that gets past its guard ends in the same state whatever its
    own slot held. *)
Lemma trigger_forgets_slot e st l s :
  isTrigger e = true -> prerequisite (stepOf e) st = true ->
  handle e (setLogs (stepOf e) l (setStatus (stepOf e) s st)) = handle e st.
Proof.
  destruct e; try discriminate; intros _ Hpre;
    cbn [stepOf handle prerequisite] in *.
  - unfold runCreateManager. rewrite bleManagerRef_slot.
    destruct (bleManagerRef st) as [h|]; cbn beta iota zeta.
    + now rewrite reset_absorb_create.
    + now rewrite reset_absorb.
  - unfold runCheckState. rewrite bleManagerRef_slot.
    destruct (bleManagerRef st); [|discriminate].
    cbn beta iota zeta. now rewrite reset_absorb.
  - unfold runUnfilteredScan. rewrite bleManagerRef_slot.
    destruct (bleManagerRef st); [|discriminate].
    cbn beta iota zeta. now rewrite reset_absorb.
  - unfold runFilteredScan. rewrite bleManagerRef_slot.
    destruct (bleManagerRef st); [|discriminate].
    cbn beta iota zeta. now rewrite reset_absorb.
  - unfold runConnect. rewrite bleManagerRef_slot.
    destruct (bleManagerRef st); [|discriminate].
    cbn beta iota zeta. now rewrite reset_absorb.
  - unfold runDiscoverServices. rewrite connectedDeviceRef_slot.
    destruct (connectedDeviceRef st); [|discriminate].
    cbn beta iota zeta. now rewrite reset_absorb.
  - unfold runValidateChars. rewrite connectedDeviceRef_slot.
    destruct (connectedDeviceRef st); [|discriminate].
    cbn beta iota zeta. now rewrite reset_absorb.
Qed.

(** ** The [seen] map *)

Section MapFacts.
Variable V : Type.
Implicit Types (m : Map V) (k : string) (v : V).

Lemma has_In m k : has m k = true <-> In k (keys m).
Proof.
  unfold has, keys. rewrite existsb_exists. split.
  - intros [[k' v] [Hin Heq]]. apply String.eqb_eq in Heq. cbn in Heq. subst.
    apply in_map_iff. now exists (k, v).
  - intros Hin. apply in_map_iff in Hin. destruct Hin as [[k' v] [Hk Hin]].
    cbn in Hk. subst. exists (k, v). split; [assumption|]. apply String.eqb_refl.
Qed.

Lemma has_false_In m k : has m k = false <-> ~ In k (keys m).
Proof.
  rewrite <- has_In. destruct (has m k); split; congruence.
Qed.

Lemma set_fresh m k v : has m k = false -> set m k v = (m ++ [(k, v)])%list.
Proof.
  induction m as [|[k' v'] r IH]; cbn; [reflexivity|].
  intros H. apply orb_false_iff in H. destruct H as [H1 H2].
  rewrite H1. now rewrite IH.
Qed.

Lemma get_app_fresh m k v k' :
  get (m ++ [(k, v)])%list k' =
  match get m k' with
  | Some x => Some x
  | None => if String.eqb k k' then Some v else None
  end.
Proof.
  induction m as [|[k0 v0] r IH]; cbn; [reflexivity|].
  destruct (String.eqb k0 k'); [reflexivity | exact IH].
Qed.

Lemma get_None_has m k : get m k = None <-> has m k = false.
Proof.
  induction m as [|[k0 v0] r IH]; cbn; [tauto|].
  destruct (String.eqb k0 k); cbn; [split; discriminate | exact IH].
Qed.
End MapFacts.

Lemma firstSeen_In l : forall i, In i (firstSeen l) <-> In i l.
Proof.
  induction l as [|x l IH]; intros i; cbn; [tauto|].
  rewrite filter_In, IH, negb_true_iff, String.eqb_neq.
  destruct (string_dec x i) as [->|Hne]; [tauto|].
  split; [tauto|]. intros [H|H]; [tauto|]. right. split; [assumption|congruence].
Qed.

Lemma firstSeen_NoDup l : NoDup (firstSeen l).
Proof.
  induction l as [|x l IH]; cbn; constructor.
  - rewrite filter_In, negb_true_iff, String.eqb_neq. tauto.
  - now apply NoDup_filter.
Qed.

Lemma filter_filter {A} (f g : A -> bool) l :
  filter f (filter g l) = filter (fun x => g x && f x) l.
Proof.
  induction l as [|x l IH]; cbn; [reflexivity|].
  destruct (g x); cbn; [destruct (f x)|]; now rewrite IH.
Qed.

(** Folding [seenStep] appends, in order of first appearance, the delivered
    identifiers the map did not hold yet. *)
Lemma keys_fold_seenStep cbs : forall seen,
  keys (fold_left seenStep cbs seen) =
  (keys seen ++ filter (fun i => negb (has seen i))
                       (firstSeen (map dev_id (delivered cbs))))%list.
Proof.
  induction cbs as [|[[e|] [d|]] cbs IH]; intros seen; cbn [fold_left seenStep];
    try (rewrite IH; reflexivity).
  - cbn. now rewrite app_nil_r.
  - rewrite IH. cbn [delivered flat_map app map firstSeen filter].
    fold (delivered cbs). rewrite filter_filter.
    destruct (has seen (dev_id d)) eqn:Hhas; cbn [negb].
    + f_equal. apply filter_ext_in. intros i _.
      destruct (String.eqb i (dev_id d)) eqn:Hi; cbn; [|reflexivity].
      apply String.eqb_eq in Hi. subst. now rewrite Hhas.
    + rewrite set_fresh by assumption. unfold keys at 1 2. rewrite map_app.
      cbn [map fst]. rewrite <- app_assoc. cbn [app]. do 2 f_equal.
      apply filter_ext. intros i. unfold has. rewrite existsb_app. cbn.
      rewrite orb_false_r, negb_orb, (String.eqb_sym (dev_id d) i).
      apply andb_comm.
Qed.

Lemma keyedById_fold cbs : forall seen,
  keyedById seen -> keyedById (fold_left seenStep cbs seen).
Proof.
  induction cbs as [|[[e|] [d|]] cbs IH]; intros seen H; cbn [fold_left seenStep];
    try (apply IH; assumption); [assumption|].
  apply IH. destruct (has seen (dev_id d)) eqn:Hhas; [assumption|].
  rewrite set_fresh by assumption. apply Forall_app. split; [assumption|].
  constructor; [reflexivity | constructor].
Qed.

Lemma keyedById_ids seen : keyedById seen -> map id (values seen) = keys seen.
Proof.
  unfold keyedById, values, keys. induction 1 as [|[k v] r Hk _ IH]; cbn; [reflexivity|].
  cbn in Hk. now rewrite Hk, IH.
Qed.

(** ** Projections through the updates *)

Lemma status_setStatus k v st : status (setStatus k v st) k = v.
Proof. unfold status. st_norm. apply cell_upd_same. Qed.

Lemma logs_setLogs k v st : logs (setLogs k v st) k = v.
Proof. unfold logs. st_norm. apply cell_upd_same. Qed.

Lemma status_setLogs k v st j : status (setLogs k v st) j = status st j.
Proof. reflexivity. Qed.

Lemma logs_setStatus k v st j : logs (setStatus k v st) j = logs st j.
Proof. reflexivity. Qed.

Lemma status_addLog k m st j : status (addLog k m st) j = status st j.
Proof. reflexivity. Qed.

Lemma logs_addLog k m st :
  logs (addLog k m st) k
  = (logs st k ++ [mkLog (wallClock (platform st) (ticks (platform st))) m])%list.
Proof. unfold logs. st_norm. apply cell_upd_same. Qed.

Lemma messages_addLog k m st :
  messages (logs (addLog k m st) k) = (messages (logs st k) ++ [m])%list.
Proof. rewrite logs_addLog. unfold messages. now rewrite map_app. Qed.

Lemma logs_setFilteredDevices v st j : logs (setFilteredDevices v st) j = logs st j.
Proof. reflexivity. Qed.


Lemma logs_setScanning b st j : logs (setScanning b st) j = logs st j.
Proof. reflexivity. Qed.

Lemma status_setScanning b st j : status (setScanning b st) j = status st j.
Proof. reflexivity. Qed.

(** ** The scan windows (steps 3 and 4) *)

Lemma scanListener_seen e d seen st :
  fst (scanListener e d (seen, st)) = seenStep seen (e, d).
Proof.
  unfold scanListener, seenStep. destruct e, d; try reflexivity.
  now destruct (has seen (dev_id d)).
Qed.

Lemma filteredScanListener_seen e d seen st :
  fst (filteredScanListener e d (seen, st)) = seenStep seen (e, d).
Proof.
  unfold filteredScanListener, seenStep. destruct e, d; try reflexivity.
  now destruct (has seen (dev_id d)).
Qed.

Lemma scanListener_devices e d seen st :
  devices st = values seen ->
  devices (snd (scanListener e d (seen, st))) = values (fst (scanListener e d (seen, st))).
Proof.
  unfold scanListener. intros H. destruct e, d; try exact H.
  now destruct (has seen (dev_id d)).
Qed.

Lemma filteredScanListener_devices e d seen st :
  filteredDevices st = values seen ->
  filteredDevices (snd (filteredScanListener e d (seen, st)))
  = values (fst (filteredScanListener e d (seen, st))).
Proof.
  unfold filteredScanListener. intros H. destruct e, d; try exact H.
  now destruct (has seen (dev_id d)).
Qed.

Lemma scanFold_seen cbs : forall c,
  fst (scanFold cbs c) = fold_left seenStep cbs (fst c).
Proof.
  unfold scanFold. induction cbs as [|[e d] cbs IH]; intros [seen st]; cbn [fold_left];
    [reflexivity|].
  rewrite IH. cbn [fst snd]. now rewrite scanListener_seen.
Qed.

Lemma filteredScanFold_seen cbs : forall c,
  fst (filteredScanFold cbs c) = fold_left seenStep cbs (fst c).
Proof.
  unfold filteredScanFold.
  induction cbs as [|[e d] cbs IH]; intros [seen st]; cbn [fold_left]; [reflexivity|].
  rewrite IH. cbn [fst snd]. now rewrite filteredScanListener_seen.
Qed.

(** The displayed list is the map's values after every callback. *)
Lemma scanFold_devices cbs : forall c,
  devices (snd c) = values (fst c) ->
  devices (snd (scanFold cbs c)) = values (fst (scanFold cbs c)).
Proof.
  unfold scanFold. induction cbs as [|[e d] cbs IH]; intros [seen st] H; cbn [fold_left];
    [exact H|].
  apply IH. cbn [fst snd] in *. now apply scanListener_devices.
Qed.

Lemma filteredScanFold_devices cbs : forall c,
  filteredDevices (snd c) = values (fst c) ->
  filteredDevices (snd (filteredScanFold cbs c)) = values (fst (filteredScanFold cbs c)).
Proof.
  unfold filteredScanFold.
  induction cbs as [|[e d] cbs IH]; intros [seen st] H; cbn [fold_left]; [exact H|].
  apply IH. cbn [fst snd] in *. now apply filteredScanListener_devices.
Qed.

Lemma unfilteredScanWindow_eq cbs st m :
  bleManagerRef st = Some m ->
  unfilteredScanWindow cbs st =
  let c := scanFold cbs ([], fst (runUnfilteredScan st)) in
  (fst c, scanTimeout (fst c) (snd c)).
Proof.
  intros Hm. unfold unfilteredScanWindow, runUnfilteredScan. rewrite Hm.
  cbn beta iota zeta delta [fst snd].
  now destruct (scanFold cbs _).
Qed.

Lemma filteredScanWindow_eq cbs st m :
  bleManagerRef st = Some m ->
  filteredScanWindow cbs st =
  let c := filteredScanFold cbs ([], fst (runFilteredScan st)) in
  (fst c, filteredScanTimeout (fst c) (snd c)).
Proof.
  intros Hm. unfold filteredScanWindow, runFilteredScan. rewrite Hm.
  cbn beta iota zeta delta [fst snd].
  now destruct (filteredScanFold cbs _).
Qed.

Lemma devices_runUnfilteredScan st m :
  bleManagerRef st = Some m -> devices (fst (runUnfilteredScan st)) = [].
Proof. intros Hm. unfold runUnfilteredScan. now rewrite Hm. Qed.

Lemma filteredDevices_runFilteredScan st m :
  bleManagerRef st = Some m -> filteredDevices (fst (runFilteredScan st)) = [].
Proof. intros Hm. unfold runFilteredScan. now rewrite Hm. Qed.

Lemma devices_scanTimeout seen st : devices (scanTimeout seen st) = devices st.
Proof. reflexivity. Qed.

Lemma filteredDevices_filteredScanTimeout seen st :
  filteredDevices (filteredScanTimeout seen st) = filteredDevices st.
Proof. reflexivity. Qed.

Lemma status_scanTimeout seen st :
  scanStatus (scanTimeout seen st) = if (0 <? size seen)%nat then pass else fail.
Proof. unfold scanStatus, scanTimeout. apply status_setStatus. Qed.

Lemma status_filteredScanTimeout seen st :
  filteredScanStatus (filteredScanTimeout seen st)
  = if (0 <? size seen)%nat then pass else fail.
Proof. unfold filteredScanStatus, filteredScanTimeout. apply status_setStatus. Qed.

(** The map a window ends with, whichever listener filled it. *)
Lemma keys_window cbs :
  keys (fold_left seenStep cbs []) = firstSeen (map dev_id (delivered cbs)).
Proof.
  rewrite keys_fold_seenStep. cbn [keys map app].
  rewrite <- (filter_ext (fun _ => true)) by reflexivity.
  induction (firstSeen _) as [|x l IH]; cbn; [reflexivity | now rewrite IH].
Qed.

Lemma keyedById_window cbs : keyedById (fold_left seenStep cbs []).
Proof. apply keyedById_fold. constructor. Qed.

Lemma size_window cbs :
  size (fold_left seenStep cbs []) = List.length (firstSeen (map dev_id (delivered cbs))).
Proof. rewrite <- keys_window. unfold size, keys. now rewrite length_map. Qed.

Lemma dedupOf_window cbs shown :
  shown = values (fold_left seenStep cbs []) ->
  dedupOf (map dev_id (delivered cbs)) (fold_left seenStep cbs []) shown.
Proof.
  intros ->. unfold dedupOf.
  rewrite (keyedById_ids (keyedById_window cbs)), keys_window.
  repeat split.
  - apply firstSeen_NoDup.
  - apply firstSeen_NoDup.
  - apply firstSeen_In.
  - apply firstSeen_In.
  - apply size_window.
Qed.

(** C6. For every scan window (step 3 and step 4) started with a manager and
    every sequence of advertisement callbacks, the map [seen] and the
    displayed device list at window end hold exactly the identifiers the
    callbacks delivered: each once (no duplicates, no drops), the map keyed
    uniquely by identifier, the list in first-seen order, and the count the
    log reports is the length of that list. *)
Theorem scan_window_dedup :
  forall (cbs : list Callback) (st : AppState) (m : nat),
    bleManagerRef st = Some m ->
    let ids := map dev_id (delivered cbs) in
    let w := unfilteredScanWindow cbs st in
    let fw := filteredScanWindow cbs st in
    dedupOf ids (fst w) (devices (snd w))
    /\ dedupOf ids (fst fw) (filteredDevices (snd fw)).
Proof.
  intros cbs st m Hm ids w fw. subst w fw ids.
  rewrite (@unfilteredScanWindow_eq cbs st m Hm), (@filteredScanWindow_eq cbs st m Hm).
  cbn beta iota zeta delta [fst snd].
  rewrite devices_scanTimeout, filteredDevices_filteredScanTimeout.
  rewrite scanFold_devices, filteredScanFold_devices.
  - rewrite scanFold_seen, filteredScanFold_seen. cbn [fst].
    split; now apply dedupOf_window.
  - cbn [fst snd]. now rewrite (@filteredDevices_runFilteredScan st m Hm).
  - cbn [fst snd]. now rewrite (@devices_runUnfilteredScan st m Hm).
Qed.

Lemma observed_delivered cbs :
  errorFree cbs ->
  (0 <? List.length (firstSeen (map dev_id (delivered cbs))))%nat = observed cbs.
Proof.
  induction 1 as [|[e d] cbs He _ IH]; [reflexivity|].
  cbn in He. subst e. destruct d as [d|]; [reflexivity | exact IH].
Qed.

Lemma quiet_scanFold cbs : forall c,
  errorFree cbs -> observed cbs = false -> scanFold cbs c = c.
Proof.
  unfold scanFold. induction cbs as [|[e d] cbs IH]; intros [seen st] He Ho; [reflexivity|].
  inversion He as [|? ? He1 He2]; subst. cbn in He1. subst e.
  cbn in Ho. destruct d; [discriminate|]. cbn [fold_left]. now apply IH.
Qed.

Lemma quiet_filteredScanFold cbs : forall c,
  errorFree cbs -> observed cbs = false -> filteredScanFold cbs c = c.
Proof.
  unfold filteredScanFold.
  induction cbs as [|[e d] cbs IH]; intros [seen st] He Ho; [reflexivity|].
  inversion He as [|? ? He1 He2]; subst. cbn in He1. subst e.
  cbn in Ho. destruct d; [discriminate|]. cbn [fold_left]. now apply IH.
Qed.

(** C7. For every error-free window of step 3 or step 4 started with a
    manager, the final status is Pass when some callback carried a device and
    Fail otherwise; a filtered scan that saw no device ends Fail and its log
    ends with the line reporting 0 device(s). *)
Theorem scan_window_status :
  forall (cbs : list Callback) (st : AppState) (m : nat),
    bleManagerRef st = Some m ->
    errorFree cbs ->
    scanStatus (snd (unfilteredScanWindow cbs st))
      = (if observed cbs then pass else fail)
    /\ filteredScanStatus (snd (filteredScanWindow cbs st))
      = (if observed cbs then pass else fail)
    /\ (observed cbs = false ->
        filteredScanStatus (snd (filteredScanWindow cbs st)) = fail
        /\ messages (filteredScanLogs (snd (filteredScanWindow cbs st)))
           = [ "Starting scan with UUID filter [0000FFE0-0000-1000-8000-00805F9B34FB] for 10 seconds...";
               "Filtered scan complete. Found 0 device(s)." ]).
Proof.
  intros cbs st m Hm He.
  rewrite (@unfilteredScanWindow_eq cbs st m Hm), (@filteredScanWindow_eq cbs st m Hm).
  cbn beta iota zeta delta [fst snd].
  rewrite status_scanTimeout, status_filteredScanTimeout.
  rewrite scanFold_seen, filteredScanFold_seen. cbn [fst].
  rewrite size_window, (@observed_delivered cbs He).
  repeat split.
  - now rewrite H.
  - rewrite (@quiet_filteredScanFold cbs _ He H). cbn [fst snd].
    unfold runFilteredScan. rewrite Hm. cbn beta iota zeta delta [fst].
    unfold filteredScanLogs, filteredScanTimeout, stopDeviceScan, startDeviceScan.
    assert (Hq : fold_left seenStep cbs [] = []).
    { pose proof (filteredScanFold_seen cbs ([], st)) as Hs.
      rewrite (@quiet_filteredScanFold cbs _ He H) in Hs. symmetry. exact Hs. }
    rewrite Hq.
    rewrite logs_setStatus, messages_addLog, !logs_setScanning, messages_addLog.
    rewrite logs_setFilteredDevices, logs_setLogs. reflexivity.
Qed.

Lemma scan_window_status_witness :
  filteredScanStatus (snd (filteredScanWindow [(None, None)] mounted)) = fail.
Proof.
  refine (proj1 (proj2 (proj2
    (@scan_window_status [(None, None)] mounted 0 _ _)) _)).
  - reflexivity.
  - repeat constructor.
  - reflexivity.
Defined.

Lemma scan_window_dedup_witness :
  map id (devices (snd (unfilteredScanWindow
                          [(None, Some sampleDevice); (None, Some sampleDevice)] mounted)))
  = ["AA:BB:CC:DD:EE:01"].
Proof.
  refine (proj1 (proj2 (proj1
    (@scan_window_dedup [(None, Some sampleDevice); (None, Some sampleDevice)]
                        mounted 0 _)))).
  reflexivity.
Defined.

(** ** Duplicates within a window *)

Lemma has_fold_seenStep cbs : forall seen i,
  has (fold_left seenStep cbs seen) i = true <->
  has seen i = true \/ In i (map dev_id (delivered cbs)).
Proof.
  intros seen i. rewrite !has_In, keys_fold_seenStep, in_app_iff, filter_In,
    firstSeen_In, negb_true_iff, has_false_In.
  destruct (in_dec string_dec i (keys seen)); tauto.
Qed.

(** The entry kept under an identifier is the one built from the first
    advertisement that carried it. *)
Lemma get_fold_seenStep cbs : forall seen i,
  get (fold_left seenStep cbs seen) i =
  match get seen i with
  | Some x => Some x
  | None => option_map toEntry (firstWith i (delivered cbs))
  end.
Proof.
  induction cbs as [|[[e|] [d|]] cbs IH]; intros seen i; cbn [fold_left seenStep];
    try (rewrite IH; reflexivity).
  - cbn. now destruct (get seen i).
  - rewrite IH. unfold firstWith. cbn [delivered flat_map app find].
    fold (delivered cbs).
    destruct (has seen (dev_id d)) eqn:Hhas.
    + destruct (get seen i) eqn:Hget; [reflexivity|].
      apply get_None_has in Hget.
      destruct (String.eqb (dev_id d) i) eqn:Hi; [|reflexivity].
      apply String.eqb_eq in Hi. congruence.
    + rewrite set_fresh by assumption. rewrite get_app_fresh.
      destruct (get seen i); [reflexivity|].
      now destruct (String.eqb (dev_id d) i).
Qed.

(** An advertisement whose identifier is already in the map changes nothing:
    not the map, not the displayed list, not the log, not the status. *)
Lemma scanListener_duplicate seen st d :
  has seen (dev_id d) = true -> scanListener None (Some d) (seen, st) = (seen, st).
Proof. intros H. unfold scanListener. now rewrite H. Qed.

Lemma filteredScanListener_duplicate seen st d :
  has seen (dev_id d) = true -> filteredScanListener None (Some d) (seen, st) = (seen, st).
Proof. intros H. unfold filteredScanListener. now rewrite H. Qed.

Lemma delivered_app a b : delivered (a ++ b) = (delivered a ++ delivered b)%list.
Proof. unfold delivered. apply flat_map_app. Qed.

(** C10. In a scan window (step 3 or step 4), once an advertisement with a
    given identifier has been processed, a later advertisement [d'] with the
    same identifier is a no-op: the listener returns the map and the whole
    component state unchanged (no new log line, same displayed list), and the
    entry stored under the identifier is the one built from the first
    advertisement that carried it. *)
Theorem duplicate_advertisement_is_noop :
  forall (cbs1 cbs2 : list Callback) (d d' : Device) (st : AppState),
    dev_id d' = dev_id d ->
    let cbs := (cbs1 ++ (None, Some d) :: cbs2)%list in
    let c := scanFold cbs ([], st) in
    let fc := filteredScanFold cbs ([], st) in
    scanListener None (Some d') c = c
    /\ filteredScanListener None (Some d') fc = fc
    /\ get (fst c) (dev_id d) = option_map toEntry (firstWith (dev_id d) (delivered cbs))
    /\ get (fst fc) (dev_id d) = option_map toEntry (firstWith (dev_id d) (delivered cbs)).
Proof.
  intros cbs1 cbs2 d d' st Hid cbs c fc.
  assert (Hin : In (dev_id d) (map dev_id (delivered cbs))).
  { subst cbs. rewrite delivered_app, map_app, in_app_iff. right. now left. }
  assert (Hc : fst c = fold_left seenStep cbs []) by (subst c; apply scanFold_seen).
  assert (Hfc : fst fc = fold_left seenStep cbs [])
    by (subst fc; apply filteredScanFold_seen).
  assert (Hhas : has (fold_left seenStep cbs []) (dev_id d') = true).
  { rewrite Hid. apply has_fold_seenStep. now right. }
  repeat split.
  - destruct c as [seen s]. cbn [fst] in Hc. subst seen.
    now apply scanListener_duplicate.
  - destruct fc as [seen s]. cbn [fst] in Hfc. subst seen.
    now apply filteredScanListener_duplicate.
  - rewrite Hc. apply get_fold_seenStep.
  - rewrite Hfc. apply get_fold_seenStep.
Qed.

Lemma duplicate_advertisement_is_noop_witness :
  let later := mkDevice "AA:BB:CC:DD:EE:01" (Some "renamed") None (Some (-70)%Z) None 23 in
  let c := scanFold [(None, Some sampleDevice)] ([], fst (runUnfilteredScan mounted)) in
  scanListener None (Some later) c = c.
Proof.
  intros later c.
  refine (proj1 (@duplicate_advertisement_is_noop
                   [] [] sampleDevice later (fst (runUnfilteredScan mounted)) _)).
  reflexivity.
Defined.

(** ** A scan error and the end of the window *)

(** On an error the listener logs code and message and sets Fail. *)
Lemma scanListener_error seen st error device :
  let c := scanListener (Some error) device (seen, st) in
  fst c = seen
  /\ scanStatus (snd c) = fail
  /\ messages (scanLogs (snd c))
     = (messages (scanLogs st)
        ++ [("Scan error: [" ++ show (errorCode error) ++ "] " ++ errorMessage error)%string])%list.
Proof.
  unfold scanListener. cbn beta iota zeta delta [fst snd].
  split; [reflexivity | split].
  - apply status_setStatus.
  - unfold scanLogs. now rewrite logs_setStatus, messages_addLog.
Qed.

(** C3 (as the code behaves). The timer of a scan window sets the status from
    the size of [seen] alone: a window started with a manager in which some
    callback delivered a device ends with status Pass, whether or not another
    callback reported an error. *)
Theorem scan_error_overridden_at_window_end :
  forall (cbs : list Callback) (st : AppState) (m : nat),
    bleManagerRef st = Some m ->
    delivered cbs <> [] ->
    scanStatus (snd (unfilteredScanWindow cbs st)) = pass
    /\ filteredScanStatus (snd (filteredScanWindow cbs st)) = pass.
Proof.
  intros cbs st m Hm Hd.
  rewrite (@unfilteredScanWindow_eq cbs st m Hm), (@filteredScanWindow_eq cbs st m Hm).
  cbn beta iota zeta delta [fst snd].
  rewrite status_scanTimeout, status_filteredScanTimeout.
  rewrite scanFold_seen, filteredScanFold_seen. cbn [fst].
  rewrite size_window.
  destruct (delivered cbs) as [|d ds]; [congruence|]. cbn. tauto.
Qed.

Lemma scan_error_overridden_at_window_end_witness :
  let cbs := [(None, Some sampleDevice); (Some sampleError, None)] in
  scanStatus (snd (scanFold cbs ([], fst (runUnfilteredScan mounted)))) = fail
  /\ scanStatus (snd (unfilteredScanWindow cbs mounted)) = pass
  /\ filteredScanStatus (snd (filteredScanWindow cbs mounted)) = pass.
Proof.
  intros cbs. split; [reflexivity|].
  refine (@scan_error_overridden_at_window_end cbs mounted 0 _ _).
  - reflexivity.
  - discriminate.
Defined.

(** ** Triggers, their own slot, and Disconnect *)

Lemma status_setStatus_other k v st j : j <> k -> status (setStatus k v st) j = status st j.
Proof. intros H. unfold status. st_norm. now apply cell_upd_other. Qed.

Lemma logs_setLogs_other k v st j : j <> k -> logs (setLogs k v st) j = logs st j.
Proof. intros H. unfold logs. st_norm. now apply cell_upd_other. Qed.

Lemma status_setConnectedRef d st j : status (setConnectedRef d st) j = status st j.
Proof. reflexivity. Qed.

Lemma logs_setConnectedRef d st j : logs (setConnectedRef d st) j = logs st j.
Proof. reflexivity. Qed.

(** A trigger stopped by its guard appends one line and sets Fail. *)
Lemma trigger_guarded e st :
  isTrigger e = true -> prerequisite (stepOf e) st = false ->
  status (handle e st) (stepOf e) = fail
  /\ exists entry, logs (handle e st) (stepOf e) = (logs st (stepOf e) ++ [entry])%list.
Proof.
  destruct e; try discriminate; intros _ Hpre; cbn [stepOf handle prerequisite] in *;
    try discriminate.
  - unfold runCheckState. destruct (bleManagerRef st); [discriminate|].
    cbn beta iota zeta delta [fst]. rewrite status_setStatus, logs_setStatus, logs_addLog.
    split; [reflexivity | eexists; reflexivity].
  - unfold runUnfilteredScan. destruct (bleManagerRef st); [discriminate|].
    cbn beta iota zeta delta [fst]. rewrite status_setStatus, logs_setStatus, logs_addLog.
    split; [reflexivity | eexists; reflexivity].
  - unfold runFilteredScan. destruct (bleManagerRef st); [discriminate|].
    cbn beta iota zeta delta [fst]. rewrite status_setStatus, logs_setStatus, logs_addLog.
    split; [reflexivity | eexists; reflexivity].
  - unfold runConnect. destruct (bleManagerRef st); [discriminate|].
    cbn beta iota zeta. rewrite status_setStatus, logs_setStatus, logs_addLog.
    split; [reflexivity | eexists; reflexivity].
  - unfold runDiscoverServices. destruct (connectedDeviceRef st); [discriminate|].
    cbn beta iota zeta. rewrite status_setStatus, logs_setStatus, logs_addLog.
    split; [reflexivity | eexists; reflexivity].
  - unfold runValidateChars. destruct (connectedDeviceRef st); [discriminate|].
    cbn beta iota zeta. rewrite status_setStatus, logs_setStatus, logs_addLog.
    split; [reflexivity | eexists; reflexivity].
Qed.

Lemma onDisconnect_done st :
  let st' := setLogs Validate []
               (setStatus Validate pending
                  (setLogs Discover []
                     (setStatus Discover pending
                        (setLogs Connect []
                           (setStatus Connect pending (setConnectedRef None st)))))) in
  connectedDeviceRef st' = None
  /\ (forall k, In k [Connect; Discover; Validate] ->
                status st' k = pending /\ logs st' k = [])
  /\ (forall k, ~ In k [Connect; Discover; Validate] ->
                status st' k = status st k /\ logs st' k = logs st k).
Proof.
  intros st'. subst st'. split; [reflexivity | split].
  - intros k [<-|[<-|[<-|[]]]]; split; reflexivity.
  - intros k Hk. cbn in Hk.
    destruct k; try (exfalso; tauto); split; reflexivity.
Qed.

Lemma onDisconnect_frame cancel st k :
  ~ In k [Connect; Discover; Validate] ->
  status (onDisconnect cancel st) k = status st k
  /\ logs (onDisconnect cancel st) k = logs st k.
Proof.
  intros Hk. unfold onDisconnect.
  destruct (match connectedDeviceRef st with Some _ => cancel | None => Ok tt end);
    [|split; reflexivity].
  now apply (onDisconnect_done st).
Qed.

(** C9 (amended). Every handler of a step - its trigger and its later
    continuations, listeners and timers - leaves the status and the log of
    every other step unchanged.  A trigger whose prerequisite is present (no
    prerequisite for step 1, a manager for steps 2-5, a connected device for
    steps 6-7) resets its own slot: what the slot holds afterwards does not
    depend on what it held before.  A trigger whose prerequisite is absent
    does not clear its log: it appends one error line to it and sets Fail.
    Disconnect leaves the slots of steps 1-4 unchanged. *)
Theorem step_touches_only_own_slot :
  forall (e : Event) (st : AppState),
    frame (stepOf e) st (handle e st)
    /\ (isTrigger e = true -> prerequisite (stepOf e) st = true -> resetsOwnSlot e st)
    /\ (isTrigger e = true -> prerequisite (stepOf e) st = false ->
        status (handle e st) (stepOf e) = fail
        /\ exists entry,
            logs (handle e st) (stepOf e) = (logs st (stepOf e) ++ [entry])%list)
    /\ (forall cancel k, ~ In k [Connect; Discover; Validate] ->
        status (onDisconnect cancel st) k = status st k
        /\ logs (onDisconnect cancel st) k = logs st k).
Proof.
  intros e st. split; [apply frame_handle | split; [|split]].
  - intros Ht Hp l s k st0. subst k st0.
    now rewrite (@trigger_forgets_slot e st l s Ht Hp).
  - apply trigger_guarded.
  - intros cancel k. apply onDisconnect_frame.
Qed.

Lemma step_touches_only_own_slot_witness :
  resetsOwnSlot EvCheckState mounted
  /\ status (handle EvCheckState (initialState freshPlatform)) CheckState = fail.
Proof.
  split.
  - refine (proj1 (proj2 (@step_touches_only_own_slot EvCheckState mounted)) _ _);
      reflexivity.
  - refine (proj1 (proj1 (proj2 (proj2
      (@step_touches_only_own_slot EvCheckState (initialState freshPlatform)))) _ _));
      reflexivity.
Defined.

(** C9 as stated fails: triggering step 2 without a manager keeps what the
    step's log held and adds a line to it. *)
Lemma retrigger_without_manager_keeps_log :
  ~ resetsOwnSlot EvCheckState (initialState freshPlatform).
Proof.
  intros H. specialize (H [mkLog "12:00:00.000" "Checking BLE adapter state..."] pass).
  destruct H as [H _]. vm_compute in H. discriminate H.
Qed.

(** C4 (amended). When the awaited cancel goes through (or there is no
    connected device to cancel), Disconnect clears the connection reference,
    resets steps 5, 6 and 7 to Pending with empty logs and leaves steps 1-4
    as they were.  When the cancel fails, the failure is absorbed and nothing
    changes: the state after is the state before. *)
Theorem disconnect_resets_unless_cancel_fails :
  forall (st : AppState),
    (forall cancel,
        connectedDeviceRef st = None \/ (exists u, cancel = Ok u) ->
        let st' := onDisconnect cancel st in
        connectedDeviceRef st' = None
        /\ (forall k, In k [Connect; Discover; Validate] ->
                      status st' k = pending /\ logs st' k = [])
        /\ (forall k, ~ In k [Connect; Discover; Validate] ->
                      status st' k = status st k /\ logs st' k = logs st k))
    /\ (forall device error,
           connectedDeviceRef st = Some device -> onDisconnect (Throw error) st = st).
Proof.
  intros st. split.
  - intros cancel H st'. subst st'. unfold onDisconnect.
    destruct H as [H|[u ->]].
    + rewrite H. apply onDisconnect_done.
    + destruct (connectedDeviceRef st); apply onDisconnect_done.
  - intros device error H. unfold onDisconnect. now rewrite H.
Qed.

Lemma disconnect_resets_unless_cancel_fails_witness :
  connectedDeviceRef (onDisconnect (Ok tt) connected) = None
  /\ onDisconnect (Throw (mkError "Operation was cancelled" (Some 2%Z))) connected
     = connected.
Proof.
  split.
  - refine (proj1 (proj1 (@disconnect_resets_unless_cancel_fails connected)
                         (Ok tt) _)).
    right. exists tt. reflexivity.
  - refine (proj2 (@disconnect_resets_unless_cancel_fails connected)
                  sampleDevice _ _).
    reflexivity.
Defined.

(** C4 as stated fails: with step 5 passed and the cancel failing, the
    connection reference is kept and step 5 stays Pass with its log. *)
Lemma disconnect_cancel_failure_keeps_connection :
  let st' := onDisconnect (Throw (mkError "Operation was cancelled" (Some 2%Z)))
                          connected in
  connectStatus connected = pass
  /\ connectedDeviceRef st' <> None
  /\ connectStatus st' <> pending
  /\ connectLogs st' <> [].
Proof. cbv zeta. repeat split; discriminate. Qed.

(** ** Step 1 and the life of the handles *)

Lemma length_setNth {A} (l : list A) : forall n v, List.length (setNth n v l) = List.length l.
Proof.
  induction l as [|x l IH]; intros [|n] v; cbn; try reflexivity. now rewrite IH.
Qed.

Lemma nth_error_setNth {A} (l : list A) : forall n v,
  (n < List.length l)%nat -> nth_error (setNth n v l) n = Some v.
Proof.
  induction l as [|x l IH]; intros [|n] v H; cbn in *; try lia; [reflexivity|].
  apply IH. lia.
Qed.

Lemma firstNotDestroyed_ge hs : forall i z,
  firstNotDestroyed hs i = Some z -> (i <= z)%nat.
Proof.
  induction hs as [|l r IH]; intros i z H; cbn in H; [discriminate|].
  destruct l; try (injection H as <-; lia).
  apply IH in H. lia.
Qed.

Lemma firstNotDestroyed_setNth hs : forall h i,
  (h < List.length hs)%nat -> firstNotDestroyed (setNth h TearingDown hs) i <> None.
Proof.
  induction hs as [|l r IH]; intros [|h] i H; cbn in *; try lia; [discriminate|].
  destruct l; try discriminate. apply IH. lia.
Qed.

Lemma firstNotDestroyed_keeps hs : forall h i,
  firstNotDestroyed hs i = Some (i + h)%nat ->
  firstNotDestroyed (setNth h TearingDown hs) i = Some (i + h)%nat.
Proof.
  induction hs as [|l r IH]; intros h i H; cbn in H; [discriminate|].
  destruct l.
  - injection H as H. replace h with 0%nat by lia. cbn. f_equal. lia.
  - injection H as H. replace h with 0%nat by lia. cbn. f_equal. lia.
  - destruct h as [|h].
    + apply firstNotDestroyed_ge in H. lia.
    + cbn. replace (i + S h)%nat with (S i + h)%nat in * by lia. now apply IH.
Qed.

(** What a successful step 1 leaves: the handles after the [destroy()] call,
    with a fresh one only when no shared instance is left, and the handle the
    constructor returned in the ref. *)
Lemma runCreateManager_ok u st :
  let hs := match bleManagerRef st with
            | Some h => setNth h TearingDown (handles (platform st))
            | None => handles (platform st)
            end in
  let st' := runCreateManager (Ok u) st in
  handles (platform st')
  = match firstNotDestroyed hs 0 with Some _ => hs | None => (hs ++ [Alive])%list end
  /\ bleManagerRef st'
     = Some (match firstNotDestroyed hs 0 with Some z => z | None => List.length hs end)
  /\ createStatus st' = pass
  /\ connectedDeviceRef st' = connectedDeviceRef st.
Proof.
  unfold runCreateManager, newBleManager, sharedInstance.
  destruct (bleManagerRef st) as [h|]; cbv zeta.
  - match goal with
    | |- context [firstNotDestroyed (handles (platform ?x)) 0] =>
        change (handles (platform x)) with (setNth h TearingDown (handles (platform st)))
    end.
    destruct (firstNotDestroyed (setNth h TearingDown (handles (platform st))) 0);
      (split; [|split; [|split]]); reflexivity.
  - match goal with
    | |- context [firstNotDestroyed (handles (platform ?x)) 0] =>
        change (handles (platform x)) with (handles (platform st))
    end.
    destruct (firstNotDestroyed (handles (platform st)) 0);
      (split; [|split; [|split]]); reflexivity.
Qed.

Lemma handles_recreate st h :
  bleManagerRef st = Some h ->
  (h < List.length (handles (platform st)))%nat ->
  let st' := runCreateManager (Ok tt) st in
  handles (platform st') = setNth h TearingDown (handles (platform st))
  /\ bleManagerRef st' = firstNotDestroyed (setNth h TearingDown (handles (platform st))) 0.
Proof.
  intros H Hlt. cbv zeta.
  destruct (runCreateManager_ok tt st) as (Hh & Hr & _). rewrite H in Hh, Hr.
  pose proof (@firstNotDestroyed_setNth (handles (platform st)) h 0 Hlt) as Hn.
  destruct (firstNotDestroyed (setNth h TearingDown (handles (platform st))) 0);
    [|congruence].
  split; assumption.
Qed.

(** C8 (as the code behaves). When step 1 runs while a live handle [h] is
    held, [destroy()] is called on it and [new BleManager()] is called in the
    same turn, before the teardown has completed: at the end of the handler
    the old handle is still being torn down, no handle has been created, and
    step 1 shows Pass.  When [h] is the library's shared instance, the
    constructor hands that same handle back: the ref holds the handle that is
    being torn down, and still holds it, destroyed, with the Pass badge, once
    the teardown completes. *)
Theorem recreate_overlaps_teardown :
  forall (st : AppState) (h : nat),
    bleManagerRef st = Some h ->
    lifecycle h st = Some Alive ->
    let st' := runCreateManager (Ok tt) st in
    lifecycle h st' = Some TearingDown
    /\ handles (platform st') = setNth h TearingDown (handles (platform st))
    /\ createStatus st' = pass
    /\ (sharedInstance st = Some h ->
        bleManagerRef st' = Some h
        /\ bleManagerRef (teardownDone h st') = Some h
        /\ lifecycle h (teardownDone h st') = Some Destroyed
        /\ createStatus (teardownDone h st') = pass).
Proof.
  intros st h Href Halive st'. subst st'.
  assert (Hlt : (h < List.length (handles (platform st)))%nat).
  { apply nth_error_Some. unfold lifecycle in Halive. congruence. }
  destruct (@handles_recreate st h Href Hlt) as [Hh Hr].
  destruct (runCreateManager_ok tt st) as (_ & _ & Hs & _).
  assert (Hl : lifecycle h (runCreateManager (Ok tt) st) = Some TearingDown).
  { unfold lifecycle. rewrite Hh. now apply nth_error_setNth. }
  split; [exact Hl|]. split; [exact Hh|]. split; [exact Hs|].
  intros Hshared.
  assert (Href' : bleManagerRef (runCreateManager (Ok tt) st) = Some h).
  { rewrite Hr. unfold sharedInstance in Hshared.
    apply (@firstNotDestroyed_keeps (handles (platform st)) h 0). exact Hshared. }
  split; [exact Href'|].
  unfold lifecycle in Hl. unfold teardownDone. rewrite Hl.
  split; [exact Href'|]. split; [|exact Hs].
  change (nth_error (setNth h Destroyed
                             (handles (platform (runCreateManager (Ok tt) st)))) h
          = Some Destroyed).
  apply nth_error_setNth. rewrite Hh, length_setNth. exact Hlt.
Qed.

Lemma recreate_overlaps_teardown_witness :
  let st' := runCreateManager (Ok tt) mounted in
  lifecycle 0 st' = Some TearingDown
  /\ handles (platform st') = [TearingDown]
  /\ createStatus st' = pass
  /\ bleManagerRef st' = Some 0%nat
  /\ bleManagerRef (teardownDone 0 st') = Some 0%nat
  /\ lifecycle 0 (teardownDone 0 st') = Some Destroyed
  /\ createStatus (teardownDone 0 st') = pass.
Proof.
  destruct (@recreate_overlaps_teardown mounted 0 eq_refl eq_refl)
    as (H1 & H2 & H3 & H4).
  destruct (H4 eq_refl) as (H5 & H6 & H7 & H8).
  cbv zeta. split; [exact H1|]. split; [exact H2|]. split; [exact H3|].
  split; [exact H5|]. split; [exact H6|]. split; [exact H7|exact H8].
Defined.

(** ** Step 2: the state-change subscription and the timer *)

Lemma subsRemoved_addLog k m st :
  subsRemoved (platform (addLog k m st)) = subsRemoved (platform st).
Proof. reflexivity. Qed.

Lemma platform_subs_runCheckState st :
  subsRemoved (platform (fst (runCheckState st))) = subsRemoved (platform st)
  /\ subsCreated (platform (fst (runCheckState st))) = subsCreated (platform st).
Proof. unfold runCheckState. destruct (bleManagerRef st); split; reflexivity. Qed.

Lemma platform_subs_onStateResolved s st :
  subsRemoved (platform (fst (onStateResolved s st))) = subsRemoved (platform st)
  /\ (subsCreated (platform st) <= subsCreated (platform (fst (onStateResolved s st))))%nat
  /\ (s <> PoweredOn ->
      snd (onStateResolved s st) = Some (subsCreated (platform st))
      /\ subsCreated (platform (fst (onStateResolved s st))) = S (subsCreated (platform st))).
Proof.
  unfold onStateResolved. destruct s; cbn; repeat split; try lia; congruence.
Qed.

Lemma removals_stateListener_on sub st other :
  removals other (stateListener sub PoweredOn st)
  = if Nat.eq_dec sub other then S (removals other st) else removals other st.
Proof. reflexivity. Qed.

Lemma stateListener_off sub s st :
  s <> PoweredOn ->
  subsRemoved (platform (stateListener sub s st)) = subsRemoved (platform st).
Proof. destruct s; intros H; try reflexivity. congruence. Qed.

Lemma platform_subs_checkStateRun s st :
  subsRemoved (platform (fst (checkStateRun s st))) = subsRemoved (platform st)
  /\ (subsCreated (platform st) <= subsCreated (platform (fst (checkStateRun s st))))%nat
  /\ (bleManagerRef st <> None -> s <> PoweredOn ->
      snd (checkStateRun s st) = Some (subsCreated (platform st))
      /\ subsCreated (platform (fst (checkStateRun s st))) = S (subsCreated (platform st))).
Proof.
  destruct (platform_subs_runCheckState st) as [Hr Hc].
  unfold checkStateRun. unfold runCheckState in *.
  destruct (bleManagerRef st) as [manager|]; cbn beta iota zeta delta [fst snd] in *.
  - match goal with
    | |- context [onStateResolved s ?x] =>
        destruct (platform_subs_onStateResolved s x) as [Hr' [Hle Hs]]
    end.
    rewrite Hr in Hr'. rewrite Hc in Hle, Hs. auto.
  - split; [reflexivity | split; [lia | congruence]].
Qed.

(** C2 (amended). A state-change subscription created by step 2 is released
    by its own listener, with one [remove()] call, when that listener observes
    PoweredOn, and the step is then Pass; on any other state the listener
    releases nothing.  Invoking step 2 (handler and continuation) releases
    nothing: every subscription active before is still active after, and when
    a manager exists and the adapter is not PoweredOn one more subscription is
    created. *)
Theorem state_subscription_release :
  forall (st : AppState) (sub : nat),
    (removals sub (stateListener sub PoweredOn st) = S (removals sub st)
     /\ (forall other, other <> sub ->
           removals other (stateListener sub PoweredOn st) = removals other st)
     /\ stateStatus (stateListener sub PoweredOn st) = pass)
    /\ (forall s, s <> PoweredOn ->
          subsRemoved (platform (stateListener sub s st)) = subsRemoved (platform st))
    /\ (forall s,
          let st2 := fst (checkStateRun s st) in
          subsRemoved (platform st2) = subsRemoved (platform st)
          /\ (active sub st -> active sub st2)
          /\ (bleManagerRef st <> None -> s <> PoweredOn ->
              snd (checkStateRun s st) = Some (subsCreated (platform st))
              /\ subsCreated (platform st2) = S (subsCreated (platform st)))).
Proof.
  intros st sub. split; [|split].
  - split; [|split].
    + rewrite removals_stateListener_on. now destruct (Nat.eq_dec sub sub).
    + intros other H. rewrite removals_stateListener_on.
      destruct (Nat.eq_dec sub other); congruence.
    + unfold stateListener, stateStatus. cbn [State_eqb]. reflexivity.
  - intros s H. now apply stateListener_off.
  - intros s st2. subst st2.
    destruct (platform_subs_checkStateRun s st) as [Hr [Hle Hs]].
    split; [exact Hr | split].
    + unfold active, removals. rewrite Hr. intros [H1 H2]. split; [lia | exact H2].
    + exact Hs.
Qed.

Lemma state_subscription_release_witness :
  let st := stateListener 0 PoweredOff (fst (checkStateRun PoweredOff mounted)) in
  active 0 st /\ active 0 (fst (checkStateRun PoweredOff st)).
Proof.
  intros st.
  assert (H : active 0 st) by (split; [cbn; lia | reflexivity]).
  split; [exact H|].
  refine (proj1 (proj2 (proj2 (proj2 (@state_subscription_release st 0))
                              PoweredOff)) H).
Defined.

(** C2 as stated fails: re-invoking step 2 while the first invocation's
    subscription is pending leaves two subscriptions active. *)
Lemma recheck_leaves_two_subscriptions :
  let st1 := stateListener 0 PoweredOff (fst (checkStateRun PoweredOff mounted)) in
  let st2 := stateListener 1 PoweredOff (fst (checkStateRun PoweredOff st1)) in
  activeSubs st1 = [0%nat]
  /\ activeSubs st2 = [0%nat; 1%nat]
  /\ active 0 st2 /\ active 1 st2.
Proof.
  cbv zeta. repeat split; cbn; lia.
Qed.

(** C5 (as the code behaves). The timer compares the [stateStatus] its closure
    was built with, not the cell.  Built with anything but Running it does
    nothing; built with Running it fails the step whatever happened since.
    So the run started on mount with the adapter off is still Running after
    the timer, with its subscription active and no timeout line; and a
    re-check pressed while Running, answered by PoweredOn within the
    deadline, is turned from Pass to Fail by the timer. *)
Theorem state_timeout_reads_stale_status :
  (forall sub st,
      stateTimeout pending sub st = st /\ stateTimeout pass sub st = st
      /\ stateTimeout fail sub st = st
      /\ stateStatus (stateTimeout running sub st) = fail)
  /\ (let st2 := fst (checkStateRun PoweredOff mounted) in
      let st3 := stateListener 0 PoweredOff st2 in
      let st4 := stateTimeout (stateStatus mounted) 0 st3 in
      stateStatus mounted = pending
      /\ snd (checkStateRun PoweredOff mounted) = Some 0%nat
      /\ stateStatus st4 = running
      /\ active 0 st4
      /\ messages (stateLogs st4)
         = [ "Checking BLE adapter state..."; "Current state: PoweredOff";
             "Waiting for state change (currently PoweredOff)...";
             "State changed to: PoweredOff" ])
  /\ (let st3 := stateListener 0 PoweredOff (fst (checkStateRun PoweredOff mounted)) in
      let st6 := stateListener 1 PoweredOff (fst (checkStateRun PoweredOff st3)) in
      let st7 := stateListener 1 PoweredOn st6 in
      let st8 := stateTimeout (stateStatus st3) 1 st7 in
      stateStatus st3 = running
      /\ stateStatus st7 = pass
      /\ stateStatus st8 = fail
      /\ removals 1 st8 = 2%nat).
Proof.
  split; [|split].
  - intros sub st. split; [reflexivity | split; [reflexivity | split; [reflexivity|]]].
    unfold stateTimeout, stateStatus. cbn [StepStatus_eqb]. reflexivity.
  - cbv zeta. repeat split. cbn. lia.
  - cbv zeta. repeat split.
Qed.

(** ** Step 7: the expected characteristics *)












(** * Further properties of the screen *)

(** ** What only logs *)

Lemma onlyLogged_refl st : onlyLogged st st.
Proof. unfold onlyLogged. tauto. Qed.

Lemma onlyLogged_addLog k m st0 st : onlyLogged st0 st -> onlyLogged st0 (addLog k m st).
Proof. intros H. exact H. Qed.

Lemma onlyLogged_setStatus k v st0 st : onlyLogged st0 st -> onlyLogged st0 (setStatus k v st).
Proof. intros H. exact H. Qed.

Lemma onlyLogged_setLogs k v st0 st : onlyLogged st0 st -> onlyLogged st0 (setLogs k v st).
Proof. intros H. exact H. Qed.

Ltac logged_step :=
  lazymatch goal with
  | |- onlyLogged ?s ?s => apply onlyLogged_refl
  | H : onlyLogged ?a ?b |- onlyLogged ?a ?b => exact H
  | |- onlyLogged _ (setStatus _ _ _) => apply onlyLogged_setStatus
  | |- onlyLogged _ (setLogs _ _ _) => apply onlyLogged_setLogs
  | |- onlyLogged _ (addLog _ _ _) => apply onlyLogged_addLog
  | |- context [match ?x with _ => _ end] => destruct x eqn:?
  end.

Ltac logged_tac := repeat first [ progress cbn beta iota zeta delta [fst snd] | logged_step ].

Lemma onlyLogged_logChars chars : forall st0 st,
  onlyLogged st0 st -> onlyLogged st0 (fold_left logChar chars st).
Proof.
  induction chars as [|c chars IH]; intros st0 st H; cbn [fold_left]; [assumption|].
  apply IH. unfold logChar. logged_tac.
Qed.

Lemma onlyLogged_logServices services : forall st0 st,
  onlyLogged st0 st -> onlyLogged st0 (fst (logServices services st)).
Proof.
  induction services as [|s services IH]; intros st0 st H; cbn [logServices];
    [assumption|].
  destruct (characteristics s) as [chars|e]; cbn [fst].
  - apply IH, onlyLogged_logChars. logged_tac.
  - logged_tac.
Qed.

Lemma onlyLogged_runDiscoverServices discovered st :
  onlyLogged st (runDiscoverServices discovered st).
Proof.
  unfold runDiscoverServices, discoveryFailed.
  destruct (connectedDeviceRef st); [|logged_tac].
  destruct discovered as [services|e]; [|logged_tac].
  match goal with
  | |- context [logServices ?l ?s] =>
      pose proof (@onlyLogged_logServices l st s) as H;
      destruct (logServices l s) as [st' [e|]]
  end; cbn [fst] in H; logged_tac; apply H; logged_tac.
Qed.

Lemma onlyLogged_checkExpected uuids exps : forall st0 b st,
  onlyLogged st0 st ->
  onlyLogged st0 (snd (fold_left (checkExpected uuids) exps (b, st))).
Proof.
  induction exps as [|e exps IH]; intros st0 b st H; cbn [fold_left]; [assumption|].
  apply IH. unfold checkExpected. logged_tac.
Qed.

Lemma onlyLogged_extraFold l : forall st0 s,
  onlyLogged st0 s ->
  onlyLogged st0 (fold_left (fun st c => addLog Validate ("  " ++ char_uuid c) st) l s).
Proof.
  induction l as [|c l IH]; intros st0 s H; cbn [fold_left]; [assumption|].
  apply IH. logged_tac.
Qed.

Lemma onlyLogged_logExtras extras st0 st :
  onlyLogged st0 st -> onlyLogged st0 (logExtras extras st).
Proof.
  intros H. unfold logExtras. destruct extras as [|c0 r]; [assumption|].
  apply onlyLogged_extraFold. logged_tac.
Qed.

Lemma onlyLogged_runValidateChars outcome st :
  onlyLogged st (runValidateChars outcome st).
Proof.
  unfold runValidateChars, validationFailed.
  destruct (connectedDeviceRef st); [|logged_tac].
  destruct outcome as [services|e]; [|logged_tac].
  destruct (find isTarget services) as [target|]; [|logged_tac].
  destruct (characteristics target) as [chars|e]; [|logged_tac].
  match goal with
  | |- context [fold_left ?f ?l (?b, ?s)] =>
      pose proof (@onlyLogged_checkExpected
                    (map (fun c => toUpperCase (char_uuid c)) chars) l st b s) as H;
      destruct (fold_left f l (b, s)) as [allFound st']
  end.
  cbn [snd] in H. cbn beta iota zeta.
  apply onlyLogged_setStatus, onlyLogged_logExtras, H. logged_tac.
Qed.

(** X1. Steps 6 and 7 are read-only: whatever the device answers, they change
    nothing but their own status and log (and read the clock) - no ref, no
    device list, no handle, no subscription, no other step's slot. *)
Theorem discover_and_validate_only_log :
  forall (outcome : result (list Service)) (st : AppState),
    (onlyLogged st (runDiscoverServices outcome st)
     /\ frame Discover st (runDiscoverServices outcome st))
    /\ (onlyLogged st (runValidateChars outcome st)
        /\ frame Validate st (runValidateChars outcome st)).
Proof.
  intros outcome st. split; split.
  - apply onlyLogged_runDiscoverServices.
  - apply frame_runDiscoverServices.
  - apply onlyLogged_runValidateChars.
  - apply frame_runValidateChars.
Qed.

(** ** Step 5 *)

Lemma runConnect_guarded device outcome st :
  bleManagerRef st = None ->
  let st' := runConnect device outcome st in
  connectStatus st' = fail /\ connectedDeviceRef st' = connectedDeviceRef st.
Proof. intros H. unfold runConnect. rewrite H. split; reflexivity. Qed.

Lemma runConnect_ok device connected st m :
  bleManagerRef st = Some m ->
  let st' := runConnect device (Ok connected) st in
  connectStatus st' = pass
  /\ connectedDeviceRef st' = Some connected
  /\ messages (connectLogs st')
     = [ ("Connecting to " ++ orElse (name device) (id device) ++ "...")%string;
         ("Connected! MTU: " ++ show (dev_mtu connected))%string;
         ("Device ID: " ++ dev_id connected)%string;
         ("Device name: " ++ orElse (dev_name connected) "(null)")%string ].
Proof. intros H. unfold runConnect. rewrite H. repeat split. Qed.

Lemma runConnect_throw device error st m :
  bleManagerRef st = Some m ->
  let st' := runConnect device (Throw error) st in
  connectStatus st' = fail
  /\ connectedDeviceRef st' = connectedDeviceRef st
  /\ messages (connectLogs st')
     = (("Connecting to " ++ orElse (name device) (id device) ++ "...")%string
        :: ("Connection FAILED: " ++ err_message error)%string
        :: match err_code error with
           | Some c => if Z.eqb c 0 then [] else [("Error code: " ++ show c)%string]
           | None => []
           end).
Proof.
  intros H. unfold runConnect. rewrite H.
  destruct (err_code error) as [c|]; [destruct (Z.eqb c 0)|]; repeat split.
Qed.

Lemma runConnect_quiet device outcome st :
  bleManagerRef (runConnect device outcome st) = bleManagerRef st
  /\ handles (platform (runConnect device outcome st)) = handles (platform st).
Proof.
  unfold runConnect. destruct (bleManagerRef st) eqn:Hm;
    [|split; [exact Hm | reflexivity]].
  destruct outcome as [c|e]; [split; [exact Hm | reflexivity]|].
  destruct (err_code e) as [c|]; [destruct (Z.eqb c 0)|];
    (split; [exact Hm | reflexivity]).
Qed.

(** X2. Step 5 ends Pass exactly when a manager is held and the connect call
    returns, and Fail otherwise.  On Pass the connection ref holds the device
    the call returned; on Fail the ref is left as it was, so a connection
    made earlier is still referenced.  The manager ref is never touched. *)
Theorem connect_verdict :
  forall (device : DiscoveredDevice) (outcome : result Device) (st : AppState),
    let st' := runConnect device outcome st in
    (connectStatus st' = pass <->
     bleManagerRef st <> None /\ exists connected, outcome = Ok connected)
    /\ (connectStatus st' = pass \/ connectStatus st' = fail)
    /\ (forall connected, connectStatus st' = pass -> outcome = Ok connected ->
                          connectedDeviceRef st' = Some connected)
    /\ (connectStatus st' = fail -> connectedDeviceRef st' = connectedDeviceRef st)
    /\ bleManagerRef st' = bleManagerRef st.
Proof.
  intros device outcome st st'. subst st'.
  destruct (runConnect_quiet device outcome st) as [Hq _].
  destruct (bleManagerRef st) as [m|] eqn:Hm.
  - destruct outcome as [c|e].
    + destruct (@runConnect_ok device c st m Hm) as [Hs [Hr _]].
      rewrite Hs, Hr. split; [|split; [|split; [|split]]].
      * split; [intros _; split; [discriminate | now exists c] | reflexivity].
      * now left.
      * intros c' _ Hc. congruence.
      * discriminate.
      * exact Hq.
    + destruct (@runConnect_throw device e st m Hm) as [Hs [Hr _]].
      rewrite Hs, Hr. split; [|split; [|split; [|split]]].
      * split; [discriminate | intros [_ [c Hc]]; discriminate].
      * now right.
      * discriminate.
      * reflexivity.
      * exact Hq.
  - destruct (@runConnect_guarded device outcome st Hm) as [Hs Hr].
    rewrite Hs, Hr. split; [|split; [|split; [|split]]].
    + split; [discriminate | intros [H _]; congruence].
    + now right.
    + discriminate.
    + reflexivity.
    + exact Hq.
Qed.

Lemma connect_verdict_witness :
  connectedDeviceRef (runConnect (toEntry sampleDevice) (Throw sampleThrow) connected)
  = Some sampleDevice.
Proof.
  refine (proj1 (proj2 (proj2 (proj2
    (@connect_verdict (toEntry sampleDevice) (Throw sampleThrow) connected)))) _).
  reflexivity.
Defined.

(** X3. With a manager held, step 5 starts its log afresh with the line naming
    the device (its name, or its identifier when it has none).  A successful
    connect adds the MTU, identifier and name lines.  A failed connect adds
    the failure line and no MTU line, followed by an error-code line exactly
    when the error carries a code other than 0. *)
Theorem connect_log :
  forall (device : DiscoveredDevice) (outcome : result Device) (st : AppState) (m : nat),
    bleManagerRef st = Some m ->
    messages (connectLogs (runConnect device outcome st))
    = (("Connecting to " ++ orElse (name device) (id device) ++ "...")%string
       :: match outcome with
          | Ok connected =>
              [ ("Connected! MTU: " ++ show (dev_mtu connected))%string;
                ("Device ID: " ++ dev_id connected)%string;
                ("Device name: " ++ orElse (dev_name connected) "(null)")%string ]
          | Throw error =>
              ("Connection FAILED: " ++ err_message error)%string
              :: match err_code error with
                 | Some c => if Z.eqb c 0 then []
                             else [("Error code: " ++ show c)%string]
                 | None => []
                 end
          end).
Proof.
  intros device outcome st m Hm. destruct outcome as [c|e].
  - now destruct (@runConnect_ok device c st m Hm) as [_ [_ H]].
  - now destruct (@runConnect_throw device e st m Hm) as [_ [_ H]].
Qed.

Lemma connect_log_witness :
  messages (connectLogs (runConnect (toEntry sampleDevice)
                                    (Throw (mkError "Unknown error" (Some 0%Z))) mounted))
  = [ "Connecting to ESP32-WiFi-1234..."; "Connection FAILED: Unknown error" ].
Proof.
  refine (@connect_log (toEntry sampleDevice) (Throw (mkError "Unknown error" (Some 0%Z)))
                       mounted 0 _).
  reflexivity.
Defined.

(** ** Step 1 *)

Lemma runCreateManager_log alloc st :
  messages (createLogs (runCreateManager alloc st))
  = [ "Creating new BleManager()...";
      match alloc with
      | Ok _ => "BleManager created successfully"
      | Throw error => ("FAILED: " ++ err_message error)%string
      end ].
Proof.
  unfold runCreateManager, newBleManager.
  destruct (bleManagerRef st), alloc; try reflexivity;
    match goal with
    | |- context [sharedInstance ?x] => destruct (sharedInstance x)
    end; reflexivity.
Qed.

Lemma runCreateManager_throw error st :
  createStatus (runCreateManager (Throw error) st) = fail
  /\ bleManagerRef (runCreateManager (Throw error) st) = None.
Proof.
  unfold runCreateManager. destruct (bleManagerRef st) eqn:Hm; split;
    try reflexivity; exact Hm.
Qed.

Lemma firstNotDestroyed_lt hs : forall i z,
  firstNotDestroyed hs i = Some z -> (z < i + List.length hs)%nat.
Proof.
  induction hs as [|l r IH]; intros i z H; cbn in *; [discriminate|].
  destruct l; try (injection H as <-; lia).
  apply IH in H. lia.
Qed.

(** X4. Step 1 always leaves exactly two lines in its log - the line written
    before the reset about an existing manager never survives - and ends Pass
    with a handle in the ref, or Fail with the ref empty.  A first creation,
    with no manager held and no shared instance left, puts a fresh live handle
    in the ref; re-creating the shared instance creates nothing and puts that
    same handle, now being torn down, back in the ref.  After a failed
    (re)creation the manager held before is gone from the ref, so steps 2, 3,
    4 and 5 then stop at their guard with Fail. *)
Theorem create_outcome :
  forall (alloc : result unit) (st : AppState),
    let st' := runCreateManager alloc st in
    messages (createLogs st')
    = [ "Creating new BleManager()...";
        match alloc with
        | Ok _ => "BleManager created successfully"
        | Throw error => ("FAILED: " ++ err_message error)%string
        end ]
    /\ match alloc with
       | Ok _ =>
           createStatus st' = pass
           /\ bleManagerRef st' <> None
           /\ (bleManagerRef st = None -> sharedInstance st = None ->
               bleManagerRef st' = Some (List.length (handles (platform st)))
               /\ lifecycle (List.length (handles (platform st))) st' = Some Alive)
           /\ (forall h, bleManagerRef st = Some h -> sharedInstance st = Some h ->
               bleManagerRef st' = Some h
               /\ lifecycle h st' = Some TearingDown
               /\ List.length (handles (platform st'))
                  = List.length (handles (platform st)))
       | Throw _ =>
           createStatus st' = fail
           /\ bleManagerRef st' = None
           /\ stateStatus (fst (runCheckState st')) = fail
           /\ scanStatus (fst (runUnfilteredScan st')) = fail
           /\ filteredScanStatus (fst (runFilteredScan st')) = fail
           /\ (forall device outcome, connectStatus (runConnect device outcome st') = fail)
       end.
Proof.
  intros alloc st st'. subst st'. split; [apply runCreateManager_log|].
  destruct alloc as [u|error].
  - destruct (runCreateManager_ok u st) as (Hh & Hr & Hs & _).
    split; [exact Hs|]. split; [rewrite Hr; discriminate|]. split.
    + intros Hnone Hshared. rewrite Hnone in Hh, Hr.
      unfold sharedInstance in Hshared. rewrite Hshared in Hh, Hr.
      split; [exact Hr|]. unfold lifecycle. rewrite Hh.
      rewrite nth_error_app2 by lia. now rewrite Nat.sub_diag.
    + intros h Hsome Hshared. rewrite Hsome in Hh, Hr.
      unfold sharedInstance in Hshared.
      pose proof (@firstNotDestroyed_lt _ 0 h Hshared) as Hlt.
      rewrite (@firstNotDestroyed_keeps (handles (platform st)) h 0 Hshared) in Hh, Hr.
      split; [exact Hr|]. unfold lifecycle. rewrite Hh, length_setNth.
      split; [|reflexivity]. apply nth_error_setNth. exact Hlt.
  - destruct (runCreateManager_throw error st) as [Hs Hr].
    split; [exact Hs | split; [exact Hr|]].
    unfold runCheckState, runUnfilteredScan, runFilteredScan. rewrite Hr.
    cbn beta iota zeta delta [fst].
    unfold stateStatus, scanStatus, filteredScanStatus, connectStatus.
    rewrite !status_setStatus. repeat split.
    intros device outcome. unfold runConnect. rewrite Hr. apply status_setStatus.
Qed.

(** ** Step 6 *)

Lemma logChars_slot chars : forall st,
  status (fold_left logChar chars st) Discover = status st Discover
  /\ messages (logs (fold_left logChar chars st) Discover)
     = (messages (logs st Discover) ++ map charLine chars)%list.
Proof.
  induction chars as [|c chars IH]; intros st; cbn [fold_left map].
  - now rewrite app_nil_r.
  - destruct (IH (logChar st c)) as [H1 H2]. split.
    + etransitivity; [exact H1 | apply status_addLog].
    + etransitivity; [exact H2|]. unfold logChar at 1.
      rewrite messages_addLog, <- app_assoc. reflexivity.
Qed.

Lemma logServices_status services : forall st,
  status (fst (logServices services st)) Discover = status st Discover.
Proof.
  induction services as [|s services IH]; intros st; cbn [logServices]; [reflexivity|].
  destruct (characteristics s) as [chars|e]; cbn [fst]; [|apply status_addLog].
  rewrite IH. destruct (logChars_slot chars
    (addLog Discover (nl ++ "  Service: " ++ svc_uuid s) st)) as [H _].
  etransitivity; [exact H | apply status_addLog].
Qed.

Lemma logServices_all services : forall st,
  forallb enumerable services = true ->
  snd (logServices services st) = None
  /\ messages (logs (fst (logServices services st)) Discover)
     = (messages (logs st Discover) ++ flat_map serviceLines services)%list.
Proof.
  induction services as [|s services IH]; intros st Hall; cbn [logServices flat_map].
  - now rewrite app_nil_r.
  - cbn [forallb] in Hall. apply andb_true_iff in Hall. destruct Hall as [Hs Hall].
    unfold enumerable in Hs. unfold serviceLines, charsOf.
    destruct (characteristics s) as [chars|e]; [|discriminate].
    destruct (IH (fold_left logChar chars
                    (addLog Discover (nl ++ "  Service: " ++ svc_uuid s) st)) Hall)
      as [H1 H2].
    split; [exact H1|]. etransitivity; [exact H2|].
    destruct (logChars_slot chars
      (addLog Discover (nl ++ "  Service: " ++ svc_uuid s) st)) as [_ H3].
    rewrite H3, messages_addLog, <- !app_assoc. reflexivity.
Qed.

Lemma logServices_stop pre : forall s post e st,
  forallb enumerable pre = true ->
  characteristics s = Throw e ->
  snd (logServices (pre ++ s :: post) st) = Some e
  /\ messages (logs (fst (logServices (pre ++ s :: post) st)) Discover)
     = (messages (logs st Discover) ++ flat_map serviceLines pre ++ [serviceLine s])%list.
Proof.
  induction pre as [|p pre IH]; intros s post e st Hall Hs;
    cbn [app logServices flat_map].
  - rewrite Hs. cbn [fst snd]. split; [reflexivity|]. now rewrite messages_addLog.
  - cbn [forallb] in Hall. apply andb_true_iff in Hall. destruct Hall as [Hp Hall].
    unfold enumerable in Hp. unfold serviceLines at 1, charsOf.
    destruct (characteristics p) as [chars|e']; [|discriminate].
    destruct (IH s post e (fold_left logChar chars
                (addLog Discover (nl ++ "  Service: " ++ svc_uuid p) st)) Hall Hs)
      as [H1 H2].
    split; [exact H1|]. etransitivity; [exact H2|].
    destruct (logChars_slot chars
      (addLog Discover (nl ++ "  Service: " ++ svc_uuid p) st)) as [_ H3].
    rewrite H3, messages_addLog, <- !app_assoc. reflexivity.
Qed.

Lemma logServices_verdict services : forall st,
  snd (logServices services st) = None <-> forallb enumerable services = true.
Proof.
  induction services as [|s services IH]; intros st; cbn [logServices forallb];
    [tauto|].
  unfold enumerable at 1. destruct (characteristics s) as [chars|e]; cbn [snd andb].
  - apply IH.
  - split; discriminate.
Qed.

Lemma runDiscoverServices_shape services st device :
  connectedDeviceRef st = Some device ->
  let r := logServices services
             (addLog Discover ("Found " ++ show (Z.of_nat (List.length services))
                               ++ " service(s):")
                (addLog Discover "Discovering all services and characteristics..."
                   (setLogs Discover [] (setStatus Discover running st)))) in
  runDiscoverServices (Ok services) st
  = match snd r with
    | None => setStatus Discover pass (fst r)
    | Some error => discoveryFailed error (fst r)
    end.
Proof.
  intros H r. subst r. unfold runDiscoverServices. rewrite H. cbv zeta.
  now destruct (logServices services _) as [st' [e|]].
Qed.

(** X5. With a connected device, step 6 ends Pass exactly when discovery
    returns the services and every service yields its characteristics, and
    Fail otherwise.  On Pass the log is the opening line, the count line and,
    per service in order, its line followed by one line per characteristic.
    When service [s] is the first whose characteristics fail, the lines of
    the services before it and the line of [s] are kept and the failure line
    ends the log. *)
Theorem discover_outcome :
  forall (discovered : result (list Service)) (st : AppState) (device : Device),
    connectedDeviceRef st = Some device ->
    let st' := runDiscoverServices discovered st in
    (discoverStatus st' = pass <->
     exists services, discovered = Ok services /\ forallb enumerable services = true)
    /\ (discoverStatus st' = pass \/ discoverStatus st' = fail)
    /\ (forall services,
           discovered = Ok services -> forallb enumerable services = true ->
           messages (discoverLogs st')
           = ([ "Discovering all services and characteristics...";
                ("Found " ++ show (Z.of_nat (List.length services))
                 ++ " service(s):")%string ]
              ++ flat_map serviceLines services)%list)
    /\ (forall pre s post error,
           discovered = Ok (pre ++ s :: post)%list ->
           forallb enumerable pre = true ->
           characteristics s = Throw error ->
           messages (discoverLogs st')
           = ([ "Discovering all services and characteristics...";
                ("Found " ++ show (Z.of_nat (List.length (pre ++ s :: post)%list))
                 ++ " service(s):")%string ]
              ++ flat_map serviceLines pre
              ++ [ serviceLine s;
                   ("Discovery FAILED: " ++ err_message error)%string ])%list).
Proof.
  intros discovered st device Hdev st'. subst st'.
  destruct discovered as [services|e].
  - rewrite (@runDiscoverServices_shape services st device Hdev). cbv zeta.
    set (s0 := addLog Discover _ (addLog Discover _ _)).
    assert (Hm0 : messages (logs s0 Discover)
                  = [ "Discovering all services and characteristics...";
                      ("Found " ++ show (Z.of_nat (List.length services))
                       ++ " service(s):")%string ]).
    { subst s0. rewrite !messages_addLog, logs_setLogs. reflexivity. }
    pose proof (logServices_verdict services s0) as Hv.
    unfold discoverStatus, discoverLogs, discoveryFailed.
    split; [|split; [|split]].
    + destruct (snd (logServices services s0)) as [err|] eqn:Hsnd.
      * rewrite status_setStatus. split; [discriminate|].
        intros [services' [Heq Hall]]. injection Heq as <-.
        apply Hv in Hall. discriminate.
      * rewrite status_setStatus. split; [|reflexivity].
        intros _. exists services. split; [reflexivity | now apply Hv].
    + destruct (snd (logServices services s0)); rewrite status_setStatus; auto.
    + intros services' Heq Hall. injection Heq as <-.
      destruct (@logServices_all services s0 Hall) as [H1 H2].
      rewrite H1, logs_setStatus, H2, Hm0. reflexivity.
    + intros pre s post error Heq Hall Hs. injection Heq as Heq.
      revert Hm0. generalize s0. rewrite Heq. intros s1 Hm1.
      destruct (@logServices_stop pre s post error s1 Hall Hs) as [H1 H2].
      rewrite H1, logs_setStatus, messages_addLog, H2, Hm1, <- !app_assoc.
      reflexivity.
  - unfold runDiscoverServices. rewrite Hdev. unfold discoveryFailed, discoverStatus.
    cbv zeta. rewrite status_setStatus. split; [|split; [|split]].
    + split; [discriminate | intros [services [H _]]; discriminate].
    + now right.
    + discriminate.
    + discriminate.
Qed.

Lemma discover_outcome_witness :
  discoverStatus (runDiscoverServices (Ok [sampleService]) connected) = pass.
Proof.
  refine (proj2 (proj1 (@discover_outcome (Ok [sampleService]) connected sampleDevice _)) _).
  - reflexivity.
  - exists [sampleService]. split; reflexivity.
Defined.

(** ** Step 7: every path *)


Lemma runValidateChars_throw error st device :
  connectedDeviceRef st = Some device ->
  let st' := runValidateChars (Throw error) st in
  validateStatus st' = fail
  /\ messages (validateLogs st')
     = [ "Looking for service 0000FFE0-0000-1000-8000-00805F9B34FB...";
         ("Validation FAILED: " ++ err_message error)%string ].
Proof.
  intros H. unfold runValidateChars, validationFailed. rewrite H. cbv zeta.
  unfold validateStatus, validateLogs.
  rewrite status_setStatus, logs_setStatus, !messages_addLog, logs_setLogs.
  split; reflexivity.
Qed.

Lemma runValidateChars_absent services st device :
  connectedDeviceRef st = Some device ->
  find isTarget services = None ->
  let st' := runValidateChars (Ok services) st in
  validateStatus st' = fail
  /\ messages (validateLogs st')
     = [ "Looking for service 0000FFE0-0000-1000-8000-00805F9B34FB...";
         "Service 0000FFE0-0000-1000-8000-00805F9B34FB NOT FOUND";
         ("Available services: " ++ join ", " (map svc_uuid services))%string ].
Proof.
  intros H Hf. unfold runValidateChars. rewrite H, Hf. cbv zeta.
  unfold validateStatus, validateLogs.
  rewrite status_setStatus, logs_setStatus, !messages_addLog, logs_setLogs.
  split; reflexivity.
Qed.

Lemma runValidateChars_unreadable services target error st device :
  connectedDeviceRef st = Some device ->
  find isTarget services = Some target ->
  characteristics target = Throw error ->
  let st' := runValidateChars (Ok services) st in
  validateStatus st' = fail
  /\ messages (validateLogs st')
     = [ "Looking for service 0000FFE0-0000-1000-8000-00805F9B34FB...";
         "Service found! Checking characteristics...";
         ("Validation FAILED: " ++ err_message error)%string ].
Proof.
  intros H Hf Hc. unfold runValidateChars, validationFailed. rewrite H, Hf, Hc. cbv zeta.
  unfold validateStatus, validateLogs.
  rewrite status_setStatus, logs_setStatus, !messages_addLog, logs_setLogs.
  split; reflexivity.
Qed.


Lemma find_first_match {A} (f : A -> bool) pre s post :
  forallb (fun x => negb (f x)) pre = true -> f s = true ->
  find f (pre ++ s :: post) = Some s.
Proof.
  induction pre as [|p pre IH]; cbn; intros Hpre Hs; [now rewrite Hs|].
  apply andb_true_iff in Hpre. destruct Hpre as [Hp Hpre].
  apply negb_true_iff in Hp. rewrite Hp. now apply IH.
Qed.

(** X7. Step 7 examines only the first service that matches the provisioning
    UUID: with [s] the first match, the services listed before and after it
    (a second matching service among them or not) make no difference to the
    resulting state. *)
Theorem validate_first_match_only :
  forall (pre post : list Service) (s : Service) (st : AppState),
    forallb (fun x => negb (isTarget x)) pre = true ->
    isTarget s = true ->
    runValidateChars (Ok (pre ++ s :: post)%list) st = runValidateChars (Ok [s]) st.
Proof.
  intros pre post s st Hpre Hs. unfold runValidateChars.
  rewrite (find_first_match isTarget pre s post Hpre Hs).
  cbn [find]. rewrite Hs. reflexivity.
Qed.

Lemma validate_first_match_only_witness :
  let complete := mkService "0000FFE0-0000-1000-8000-00805F9B34FB"
                    (Ok [ sampleChar "0000FFE1-0000-1000-8000-00805F9B34FB";
                          sampleChar "0000FFE2-0000-1000-8000-00805F9B34FB";
                          sampleChar "0000FFE3-0000-1000-8000-00805F9B34FB" ]) in
  let empty := mkService "0000ffe0-0000-1000-8000-00805f9b34fb" (Ok []) in
  validateStatus (runValidateChars (Ok [empty; complete]) connected) = fail.
Proof.
  intros complete empty.
  change (validateStatus
            (runValidateChars (Ok ([] ++ empty :: [complete])%list) connected) = fail).
  rewrite (@validate_first_match_only [] [complete] empty connected eq_refl eq_refl).
  reflexivity.
Defined.

(** X8. The three ways step 7 fails before it looks at characteristics, each
    with a connected device: the service list cannot be read, no service
    matches (the log then names the UUID and lists every discovered service
    UUID, joined by commas), or the matching service's characteristics
    cannot be read.  Each ends Fail with the log started afresh. *)
Theorem validate_failure_paths :
  forall (st : AppState) (device : Device),
    connectedDeviceRef st = Some device ->
    (forall error,
        let st' := runValidateChars (Throw error) st in
        validateStatus st' = fail
        /\ messages (validateLogs st')
           = [ "Looking for service 0000FFE0-0000-1000-8000-00805F9B34FB...";
               ("Validation FAILED: " ++ err_message error)%string ])
    /\ (forall services,
           (forall s, In s services -> ~ sameCase (svc_uuid s) SERVICE_UUID) ->
           let st' := runValidateChars (Ok services) st in
           validateStatus st' = fail
           /\ messages (validateLogs st')
              = [ "Looking for service 0000FFE0-0000-1000-8000-00805F9B34FB...";
                  "Service 0000FFE0-0000-1000-8000-00805F9B34FB NOT FOUND";
                  ("Available services: " ++ join ", " (map svc_uuid services))%string ])
    /\ (forall services target error,
           find isTarget services = Some target ->
           characteristics target = Throw error ->
           let st' := runValidateChars (Ok services) st in
           validateStatus st' = fail
           /\ messages (validateLogs st')
              = [ "Looking for service 0000FFE0-0000-1000-8000-00805F9B34FB...";
                  "Service found! Checking characteristics...";
                  ("Validation FAILED: " ++ err_message error)%string ]).
Proof.
  intros st device Hdev. split; [|split].
  - intros error. now apply runValidateChars_throw with (device := device).
  - intros services Hnone. apply runValidateChars_absent with (device := device);
      [assumption|].
    destruct (find isTarget services) as [t|] eqn:Hf; [|reflexivity].
    apply find_some in Hf. destruct Hf as [Hin Ht]. exfalso.
    apply (Hnone t Hin). unfold isTarget in Ht. now apply String.eqb_eq in Ht.
  - intros services target error Hf Hc.
    now apply runValidateChars_unreadable with (target := target) (device := device).
Qed.

Lemma validate_failure_paths_witness :
  messages (validateLogs
              (runValidateChars
                 (Ok [ mkService "00001800-0000-1000-8000-00805f9b34fb" (Ok []);
                       mkService "00001801-0000-1000-8000-00805f9b34fb" (Ok []) ])
                 connected))
  = [ "Looking for service 0000FFE0-0000-1000-8000-00805F9B34FB...";
      "Service 0000FFE0-0000-1000-8000-00805F9B34FB NOT FOUND";
      "Available services: 00001800-0000-1000-8000-00805f9b34fb, 00001801-0000-1000-8000-00805f9b34fb" ].
Proof.
  refine (proj2 (proj1 (proj2
    (@validate_failure_paths connected sampleDevice eq_refl))
    [ mkService "00001800-0000-1000-8000-00805f9b34fb" (Ok []);
      mkService "00001801-0000-1000-8000-00805f9b34fb" (Ok []) ] _)).
  intros s [<-|[<-|[]]]; discriminate.
Defined.

(** ** The scan logs and the scan itself *)








Lemma scanListener_keeps e d seen st :
  let st' := snd (scanListener e d (seen, st)) in
  status st' Scan = match e with Some _ => fail | None => status st Scan end
  /\ scanning (platform st') = scanning (platform st)
  /\ bleManagerRef st' = bleManagerRef st.
Proof.
  unfold scanListener. destruct e as [e|]; cbn beta iota zeta delta [snd].
  - split; [apply status_setStatus | split; reflexivity].
  - destruct d as [d|]; [destruct (has seen (dev_id d))|]; repeat split.
Qed.

Lemma filteredScanListener_keeps e d seen st :
  let st' := snd (filteredScanListener e d (seen, st)) in
  status st' FilteredScan = match e with Some _ => fail | None => status st FilteredScan end
  /\ scanning (platform st') = scanning (platform st)
  /\ bleManagerRef st' = bleManagerRef st.
Proof.
  unfold filteredScanListener. destruct e as [e|]; cbn beta iota zeta delta [snd].
  - split; [apply status_setStatus | split; reflexivity].
  - destruct d as [d|]; [destruct (has seen (dev_id d))|]; repeat split.
Qed.

Lemma scanFold_keeps cbs : forall c,
  status (snd (scanFold cbs c)) Scan
  = (if errored cbs then fail else status (snd c) Scan)
  /\ scanning (platform (snd (scanFold cbs c))) = scanning (platform (snd c))
  /\ bleManagerRef (snd (scanFold cbs c)) = bleManagerRef (snd c).
Proof.
  unfold scanFold. induction cbs as [|[e d] cbs IH]; intros [seen st]; cbn [fold_left].
  - repeat split.
  - destruct (IH (scanListener e d (seen, st))) as [H1 [H2 H3]].
    destruct (scanListener_keeps e d seen st) as [K1 [K2 K3]].
    cbn [fst snd] in *. rewrite H1, H2, H3, K1, K2, K3.
    split; [|split; reflexivity].
    destruct e as [b|]; [|reflexivity].
    change (errored ((Some b, d) :: cbs)) with true. now destruct (errored cbs).
Qed.

Lemma filteredScanFold_keeps cbs : forall c,
  status (snd (filteredScanFold cbs c)) FilteredScan
  = (if errored cbs then fail else status (snd c) FilteredScan)
  /\ scanning (platform (snd (filteredScanFold cbs c))) = scanning (platform (snd c))
  /\ bleManagerRef (snd (filteredScanFold cbs c)) = bleManagerRef (snd c).
Proof.
  unfold filteredScanFold.
  induction cbs as [|[e d] cbs IH]; intros [seen st]; cbn [fold_left].
  - repeat split.
  - destruct (IH (filteredScanListener e d (seen, st))) as [H1 [H2 H3]].
    destruct (filteredScanListener_keeps e d seen st) as [K1 [K2 K3]].
    cbn [fst snd] in *. rewrite H1, H2, H3, K1, K2, K3.
    split; [|split; reflexivity].
    destruct e as [b|]; [|reflexivity].
    change (errored ((Some b, d) :: cbs)) with true. now destruct (errored cbs).
Qed.

Lemma runUnfilteredScan_started st m :
  bleManagerRef st = Some m ->
  scanStatus (fst (runUnfilteredScan st)) = running
  /\ scanning (platform (fst (runUnfilteredScan st))) = true.
Proof. intros H. unfold runUnfilteredScan. rewrite H. split; reflexivity. Qed.

Lemma runFilteredScan_started st m :
  bleManagerRef st = Some m ->
  filteredScanStatus (fst (runFilteredScan st)) = running
  /\ scanning (platform (fst (runFilteredScan st))) = true.
Proof. intros H. unfold runFilteredScan. rewrite H. split; reflexivity. Qed.

(** X10. While a scan window started with a manager is open, the device scan
    stays on whatever the callbacks bring - an error callback does not stop
    it - and the step is Running until the first error callback and Fail from
    then on; the listeners never set Pass.  Only the timer stops the scan.
    After an error the scan button is enabled again although the scan and its
    timer are still pending. *)
Theorem scan_window_in_progress :
  forall (cbs : list Callback) (st : AppState) (m : nat),
    bleManagerRef st = Some m ->
    let c3 := scanFold cbs ([], fst (runUnfilteredScan st)) in
    let c4 := filteredScanFold cbs ([], fst (runFilteredScan st)) in
    (scanStatus (snd c3) = (if errored cbs then fail else running)
     /\ scanning (platform (snd c3)) = true
     /\ scanButtonEnabled (snd c3) = errored cbs
     /\ scanning (platform (snd (unfilteredScanWindow cbs st))) = false)
    /\ (filteredScanStatus (snd c4) = (if errored cbs then fail else running)
        /\ scanning (platform (snd c4)) = true
        /\ filteredScanButtonEnabled (snd c4) = errored cbs
        /\ scanning (platform (snd (filteredScanWindow cbs st))) = false).
Proof.
  intros cbs st m Hm c3 c4.
  destruct (@runUnfilteredScan_started st m Hm) as [S3 R3].
  destruct (@runFilteredScan_started st m Hm) as [S4 R4].
  destruct (scanFold_keeps cbs ([], fst (runUnfilteredScan st))) as [A3 [B3 _]].
  destruct (filteredScanFold_keeps cbs ([], fst (runFilteredScan st))) as [A4 [B4 _]].
  cbn [snd] in A3, B3, A4, B4. fold c3 in A3, B3. fold c4 in A4, B4.
  unfold scanStatus, filteredScanStatus in *. rewrite S3 in A3. rewrite S4 in A4.
  split; (split; [|split; [|split]]).
  - exact A3.
  - now rewrite B3.
  - unfold scanButtonEnabled, scanStatus. rewrite A3. now destruct (errored cbs).
  - rewrite (@unfilteredScanWindow_eq cbs st m Hm). reflexivity.
  - exact A4.
  - now rewrite B4.
  - unfold filteredScanButtonEnabled, filteredScanStatus. rewrite A4.
    now destruct (errored cbs).
  - rewrite (@filteredScanWindow_eq cbs st m Hm). reflexivity.
Qed.

Lemma scan_window_in_progress_witness :
  let c3 := scanFold [(None, Some sampleDevice); (Some sampleError, None)]
                     ([], fst (runUnfilteredScan mounted)) in
  scanning (platform (snd c3)) = true /\ scanButtonEnabled (snd c3) = true.
Proof.
  destruct (@scan_window_in_progress
              [(None, Some sampleDevice); (Some sampleError, None)] mounted 0 eq_refl)
    as [[_ [H1 [H2 _]]] _].
  split; [exact H1 | exact H2].
Defined.

(** X11. The two scan steps share the manager's one scan: when step 4 has
    been started and step 3's timer fires (a window opened less than 10 s
    before step 4's), the timer stops the scan while step 4 keeps the status
    it had - Running, if no error was reported - and its device list; and the
    same with the steps exchanged. *)
Theorem scan_timer_stops_other_scan :
  forall (cbs : list Callback) (st : AppState) (m : nat) (seen : Map DiscoveredDevice),
    bleManagerRef st = Some m ->
    errored cbs = false ->
    let st4 := snd (filteredScanFold cbs ([], fst (runFilteredScan st))) in
    let st3 := snd (scanFold cbs ([], fst (runUnfilteredScan st))) in
    (scanning (platform st4) = true
     /\ scanning (platform (scanTimeout seen st4)) = false
     /\ filteredScanStatus (scanTimeout seen st4) = running
     /\ filteredDevices (scanTimeout seen st4) = filteredDevices st4)
    /\ (scanning (platform st3) = true
        /\ scanning (platform (filteredScanTimeout seen st3)) = false
        /\ scanStatus (filteredScanTimeout seen st3) = running
        /\ devices (filteredScanTimeout seen st3) = devices st3).
Proof.
  intros cbs st m seen Hm Hok st4 st3.
  destruct (@runUnfilteredScan_started st m Hm) as [S3 R3].
  destruct (@runFilteredScan_started st m Hm) as [S4 R4].
  destruct (scanFold_keeps cbs ([], fst (runUnfilteredScan st))) as [A3 [B3 _]].
  destruct (filteredScanFold_keeps cbs ([], fst (runFilteredScan st))) as [A4 [B4 _]].
  cbn [snd] in A3, B3, A4, B4. fold st3 in A3, B3. fold st4 in A4, B4.
  rewrite Hok in A3, A4. unfold scanStatus, filteredScanStatus in *.
  split; (split; [|split; [|split]]); try reflexivity.
  - now rewrite B4.
  - pose proof (frame_scanTimeout seen st4) as F. unfold frame in F.
    destruct (F FilteredScan) as [H _]; [discriminate|]. now rewrite H, A4.
  - now rewrite B3.
  - pose proof (frame_filteredScanTimeout seen st3) as F. unfold frame in F.
    destruct (F Scan) as [H _]; [discriminate|]. now rewrite H, A3.
Qed.

Lemma scan_timer_stops_other_scan_witness :
  let st4 := snd (filteredScanFold [] ([], fst (runFilteredScan mounted))) in
  filteredScanStatus (scanTimeout [] st4) = running
  /\ scanning (platform (scanTimeout [] st4)) = false.
Proof.
  destruct (@scan_timer_stops_other_scan [] mounted 0 [] eq_refl eq_refl)
    as [[_ [H1 [H2 _]]] _].
  split; [exact H2 | exact H1].
Defined.

(** ** What holds in every state the screen can reach *)

Ltac keeps_tac :=
  repeat match goal with
         | |- context [match ?x with _ => _ end] => destruct x eqn:?
         end;
  cbn beta iota zeta delta [fst snd];
  first [ reflexivity | assumption ].

Lemma handle_keeps_manager e st :
  stepOf e <> Create ->
  bleManagerRef (handle e st) = bleManagerRef st
  /\ handles (platform (handle e st)) = handles (platform st).
Proof.
  destruct e; cbn [stepOf handle]; intros Hne; try congruence.
  - unfold runCheckState. split; keeps_tac.
  - unfold onStateResolved, onStateChange. split; keeps_tac.
  - unfold stateListener. split; keeps_tac.
  - unfold stateTimeout. split; keeps_tac.
  - unfold runUnfilteredScan. split; keeps_tac.
  - unfold scanListener. split; keeps_tac.
  - split; reflexivity.
  - unfold runFilteredScan. split; keeps_tac.
  - unfold filteredScanListener. split; keeps_tac.
  - split; reflexivity.
  - apply runConnect_quiet.
  - destruct (onlyLogged_runDiscoverServices discovered st) as [H1 [_ [_ [_ [_ [H2 _]]]]]].
    now split.
  - destruct (onlyLogged_runValidateChars deviceServices st)
      as [H1 [_ [_ [_ [_ [H2 _]]]]]].
    now split.
Qed.

Lemma handle_keeps_connection e st :
  stepOf e <> Connect -> connectedDeviceRef (handle e st) = connectedDeviceRef st.
Proof.
  destruct e; cbn [stepOf handle]; intros Hne; try congruence.
  - destruct alloc as [u|err].
    + now destruct (runCreateManager_ok u st) as (_ & _ & _ & H).
    + unfold runCreateManager. keeps_tac.
  - unfold runCheckState. keeps_tac.
  - unfold onStateResolved, onStateChange. keeps_tac.
  - unfold stateListener. keeps_tac.
  - unfold stateTimeout. keeps_tac.
  - unfold runUnfilteredScan. keeps_tac.
  - unfold scanListener. keeps_tac.
  - reflexivity.
  - unfold runFilteredScan. keeps_tac.
  - unfold filteredScanListener. keeps_tac.
  - reflexivity.
  - now destruct (onlyLogged_runDiscoverServices discovered st) as [_ [H _]].
  - now destruct (onlyLogged_runValidateChars deviceServices st) as [_ [H _]].
Qed.

Lemma handle_other_status e st j :
  j <> stepOf e -> status (handle e st) j = status st j.
Proof.
  intros H. pose proof (frame_handle e st) as F. unfold frame in F.
  now destruct (F j H).
Qed.

(** *** The cut handlers make up the whole ones *)

Lemma run_app acts1 acts2 st : run (acts1 ++ acts2) st = run acts2 (run acts1 st).
Proof. unfold run. apply fold_left_app. Qed.

Lemma runConnect_cut device connectToDevice st :
  runConnect device connectToDevice st
  = run (ConnectStart device
         :: if snd (connectStart device st) then [ConnectSettled connectToDevice] else [])
        st.
Proof.
  unfold runConnect, run, connectStart. cbn [fold_left perform].
  unfold connectStart. destruct (bleManagerRef st); reflexivity.
Qed.

Lemma onDisconnect_cut cancelConnection st :
  onDisconnect cancelConnection st
  = run [ DisconnectSettled match connectedDeviceRef st with
                            | Some _ => cancelConnection
                            | None => Ok tt
                            end ] st.
Proof. reflexivity. Qed.

Lemma charWrites_run chars : forall st,
  run (map (fun char => Log Discover ("    Char: " ++ char_uuid char ++ " ["
                                      ++ join ", " (charProps char) ++ "]")) chars) st
  = fold_left logChar chars st.
Proof.
  induction chars as [|c chars IH]; intros st; [reflexivity|].
  cbn [map fold_left]. unfold run in *. cbn [fold_left]. rewrite IH. reflexivity.
Qed.

Lemma serviceWrites_run services : forall st,
  run (serviceWrites services) st
  = match logServices services st with
    | (st', None) => setStatus Discover pass st'
    | (st', Some error) => discoveryFailed error st'
    end.
Proof.
  induction services as [|service rest IH]; intros st; [reflexivity|].
  cbn [serviceWrites logServices].
  change (run (?a :: ?l) st) with (run l (perform st a)). cbn [perform].
  destruct (characteristics service) as [chars|e].
  - rewrite run_app, charWrites_run. apply IH.
  - reflexivity.
Qed.

Lemma runDiscoverServices_cut discovered st :
  runDiscoverServices discovered st
  = run (DiscoverStart
         :: if snd (discoverStart st) then discoverWrites discovered else []) st.
Proof.
  change (run (?a :: ?l) st) with (run l (perform st a)). cbn [perform].
  unfold runDiscoverServices, discoverStart.
  destruct (connectedDeviceRef st) as [device|]; cbn [fst snd]; [|reflexivity].
  destruct discovered as [services|error]; [|reflexivity].
  cbn [discoverWrites].
  change (run (?a :: ?l) ?s) with (run l (perform s a)). cbn [perform].
  symmetry. apply serviceWrites_run.
Qed.

Lemma expectedWrites_run (found : string * string -> bool) exps : forall allFound st,
  fold_left (fun acc exp =>
               (if found exp then fst acc else false,
                addLog Validate (expectedLine (found exp) exp) (snd acc)))
            exps (allFound, st)
  = (allFound && forallb found exps,
     run (map (fun exp => Log Validate (expectedLine (found exp) exp)) exps) st).
Proof.
  induction exps as [|exp exps IH]; intros allFound st; cbn [fold_left map forallb].
  - now rewrite andb_true_r.
  - cbn [fst snd]. rewrite IH. f_equal.
    destruct (found exp), allFound; reflexivity.
Qed.

Lemma checkExpected_unfold charUUIDs exps : forall acc,
  fold_left (checkExpected charUUIDs) exps acc
  = fold_left (fun acc exp =>
                 (if includes charUUIDs (toUpperCase (fst exp)) then fst acc else false,
                  addLog Validate
                         (expectedLine (includes charUUIDs (toUpperCase (fst exp))) exp)
                         (snd acc)))
              exps acc.
Proof.
  induction exps as [|exp exps IH]; intros [allFound st]; [reflexivity|].
  cbn [fold_left]. rewrite <- IH. reflexivity.
Qed.

Lemma extrasWrites_run extras st :
  run (extrasWrites extras) st = logExtras extras st.
Proof.
  unfold logExtras, extrasWrites. destruct extras as [|c extras]; [reflexivity|].
  change (run (?a :: ?l) st) with (run l (perform st a)). cbn [perform].
  generalize (c :: extras). intros l.
  generalize (addLog Validate (nl ++ "Extra characteristics on this service:") st).
  induction l as [|x l IH]; intros s; [reflexivity|].
  cbn [map fold_left]. rewrite <- IH. reflexivity.
Qed.

Lemma runValidateChars_cut deviceServices st :
  runValidateChars deviceServices st
  = run (ValidateStart
         :: if snd (validateStart st) then validateWrites deviceServices else []) st.
Proof.
  change (run (?a :: ?l) st) with (run l (perform st a)). cbn [perform].
  unfold runValidateChars, validateStart.
  destruct (connectedDeviceRef st) as [device|]; cbn [fst snd]; [|reflexivity].
  destruct deviceServices as [services|error]; [|reflexivity].
  cbn [validateWrites].
  destruct (find isTarget services) as [target|]; [|reflexivity].
  change (run (?a :: ?l) ?s) with (run l (perform s a)). cbn [perform].
  destruct (characteristics target) as [chars|error]; [|reflexivity].
  cbv zeta. rewrite checkExpected_unfold.
  rewrite (expectedWrites_run
             (fun exp => includes (map (fun c => toUpperCase (char_uuid c)) chars)
                                  (toUpperCase (fst exp)))).
  rewrite !run_app, extrasWrites_run. reflexivity.
Qed.

(** *** The badges and the refs *)

Lemma badgesMatchRefs_handle e st :
  badgesMatchRefs st -> badgesMatchRefs (handle e st).
Proof.
  intros [Hc Hk]. unfold badgesMatchRefs, createStatus, connectStatus in *.
  assert (Dcases : stepOf e = Create \/ stepOf e = Connect
                   \/ (stepOf e <> Create /\ stepOf e <> Connect))
    by (destruct (stepOf e); intuition congruence).
  destruct Dcases as [E|[E|[N1 N2]]].
  - (* step 1 *)
    rewrite (handle_other_status e st (j:=Connect)) by congruence.
    rewrite (handle_keeps_connection e st) by congruence.
    split; [|assumption].
    destruct e; try discriminate E. cbn [handle]. destruct alloc as [u|err].
    + destruct (runCreateManager_ok u st) as (_ & Hr & Hs & _).
      unfold createStatus in Hs. rewrite Hs, Hr. split; [discriminate | reflexivity].
    + destruct (runCreateManager_throw err st) as [Hs Hr].
      unfold createStatus in Hs. rewrite Hs, Hr. split; [discriminate | congruence].
  - (* step 5 *)
    rewrite (handle_other_status e st (j:=Create)) by congruence.
    destruct (handle_keeps_manager e st) as [Hm _]; [congruence|]. rewrite Hm.
    split; [assumption|].
    destruct e; try discriminate E. cbn [handle].
    destruct (bleManagerRef st) as [m|] eqn:Href.
    + destruct connectToDevice as [c|err].
      * destruct (@runConnect_ok device c st m Href) as [_ [Hr _]]. rewrite Hr.
        discriminate.
      * destruct (@runConnect_throw device err st m Href) as [Hs [Hr _]].
        unfold connectStatus in Hs. rewrite Hs, Hr. discriminate.
    + destruct (@runConnect_guarded device connectToDevice st Href) as [Hs Hr].
      unfold connectStatus in Hs. rewrite Hs, Hr. discriminate.
  - rewrite (handle_other_status e st (j:=Create)) by congruence.
    rewrite (handle_other_status e st (j:=Connect)) by congruence.
    destruct (handle_keeps_manager e st) as [Hm _]; [congruence|]. rewrite Hm.
    rewrite (handle_keeps_connection e st) by congruence.
    auto.
Qed.

Lemma badgesMatchRefs_perform a st :
  badgesMatchRefs st -> badgesMatchRefs (perform st a).
Proof.
  destruct a as [e|device|connectToDevice| | |k msg|v|v|cancel|awaited|h];
    cbn [perform].
  - apply badgesMatchRefs_handle.
  - unfold connectStart.
    destruct (bleManagerRef st); cbn [fst]; intros [Hc Hk];
      (split; [exact Hc | discriminate]).
  - intros [Hc Hk]. unfold connectSettled.
    destruct connectToDevice as [c|err].
    + split; [exact Hc|]. intros _. discriminate.
    + destruct (err_code err) as [z|]; [destruct (Z.eqb z 0)|];
        (split; [exact Hc | discriminate]).
  - unfold discoverStart.
    destruct (connectedDeviceRef st); cbn [fst]; intros [Hc Hk];
      (split; [exact Hc | exact Hk]).
  - unfold validateStart.
    destruct (connectedDeviceRef st); cbn [fst]; intros [Hc Hk];
      (split; [exact Hc | exact Hk]).
  - intros [Hc Hk]. split.
    + unfold createStatus. rewrite status_addLog. exact Hc.
    + unfold connectStatus. rewrite status_addLog. exact Hk.
  - intros [Hc Hk]. split; [exact Hc | exact Hk].
  - intros [Hc Hk]. split; [exact Hc | exact Hk].
  - intros [Hc Hk]. unfold onDisconnect.
    destruct (match connectedDeviceRef st with Some _ => cancel | None => Ok tt end);
      [|exact (conj Hc Hk)].
    split; [exact Hc | discriminate].
  - intros [Hc Hk]. unfold disconnectSettled.
    destruct awaited; [|exact (conj Hc Hk)].
    split; [exact Hc | discriminate].
  - intros H. unfold teardownDone.
    destruct (nth_error (handles (platform st)) h) as [[| |]|]; exact H.
Qed.

(** X12. In every state the mounted screen can reach - by any sequence of
    step handlers, listeners, timers and completed teardowns in which the
    asynchronous handlers of steps 5, 6, 7 and of Disconnect may also run in
    parts, each part before or after an [await] interleaved with anything
    else - step 1 shows Pass exactly when a manager is held, and whenever
    step 5 shows Pass (the Disconnect button and the step 6 button are on) a
    connected device is held. *)
Theorem badges_match_refs :
  forall (acts : list Action) (p : Platform),
    badgesMatchRefs (run acts (initialState p)).
Proof.
  intros acts p. unfold run.
  assert (H0 : badgesMatchRefs (initialState p)).
  { unfold badgesMatchRefs. cbn. split; [split; [discriminate | congruence] | discriminate]. }
  revert H0. generalize (initialState p).
  induction acts as [|a acts IH]; intros st H; cbn [fold_left]; [exact H|].
  apply IH. now apply badgesMatchRefs_perform.
Qed.

(** *** The handles *)

Lemma nth_error_setNth_other {A} (l : list A) : forall n m v,
  n <> m -> nth_error (setNth n v l) m = nth_error l m.
Proof.
  induction l as [|x l IH]; intros [|n] [|m] v H; cbn; try reflexivity; try congruence.
  apply IH. congruence.
Qed.

Lemma nth_error_setNth_same {A} (l : list A) : forall n v x,
  nth_error (setNth n v l) n = Some x -> x = v.
Proof.
  induction l as [|y l IH]; intros [|n] v x H; cbn in H; try discriminate.
  - congruence.
  - now apply IH in H.
Qed.

Lemma runCreateManager_throw_handles error st :
  handles (platform (runCreateManager (Throw error) st))
  = match bleManagerRef st with
    | Some h => setNth h TearingDown (handles (platform st))
    | None => handles (platform st)
    end.
Proof. unfold runCreateManager. now destruct (bleManagerRef st). Qed.

(** After [destroy()] on the ref's handle no handle is left alive. *)
Lemma none_alive_after_destroy st h' :
  onlyRefAlive st ->
  nth_error (match bleManagerRef st with
             | Some h => setNth h TearingDown (handles (platform st))
             | None => handles (platform st)
             end) h' <> Some Alive.
Proof.
  intros H1 Hal. unfold onlyRefAlive, lifecycle in H1.
  destruct (bleManagerRef st) as [h|] eqn:Href.
  - destruct (Nat.eq_dec h h') as [<-|Hne].
    + apply nth_error_setNth_same in Hal. discriminate.
    + rewrite nth_error_setNth_other in Hal by exact Hne.
      specialize (H1 h' Hal). congruence.
  - specialize (H1 h' Hal). discriminate.
Qed.

Lemma onlyRefAlive_perform a st :
  onlyRefAlive st -> onlyRefAlive (perform st a).
Proof.
  intros Hinv.
  destruct a as [e|device|connectToDevice| | |k msg|v|v|cancel|awaited|h];
    cbn [perform].
  - assert (Dcases : stepOf e = Create \/ stepOf e <> Create)
      by (destruct (stepOf e); intuition congruence).
    destruct Dcases as [E|N].
    + destruct e; try discriminate E. cbn [handle]. destruct alloc as [u|err].
      * destruct (runCreateManager_ok u st) as (Hh & Hr & _).
        pose proof (fun h' => @none_alive_after_destroy st h' Hinv) as Hnone.
        unfold onlyRefAlive, lifecycle. rewrite Hr, Hh.
        set (old := match bleManagerRef st with
                    | Some h => setNth h TearingDown (handles (platform st))
                    | None => handles (platform st)
                    end) in *.
        destruct (firstNotDestroyed old 0) as [z|].
        -- intros h' Hal. exfalso. exact (Hnone h' Hal).
        -- intros h' Hal. f_equal.
           destruct (lt_dec h' (List.length old)) as [Hlt|Hge].
           ++ rewrite nth_error_app1 in Hal by exact Hlt.
              exfalso. exact (Hnone h' Hal).
           ++ rewrite nth_error_app2 in Hal by lia.
              destruct (h' - List.length old)%nat as [|j] eqn:Hj; [lia|].
              cbn in Hal. destruct j; discriminate.
      * destruct (runCreateManager_throw err st) as [_ Hr].
        unfold onlyRefAlive, lifecycle. rewrite Hr, runCreateManager_throw_handles.
        intros h' Hal. exfalso. exact (@none_alive_after_destroy st h' Hinv Hal).
    + destruct (handle_keeps_manager e st N) as [Hr Hh].
      unfold onlyRefAlive, lifecycle in *. rewrite Hr, Hh. exact Hinv.
  - unfold connectStart. destruct (bleManagerRef st); exact Hinv.
  - unfold connectSettled. destruct connectToDevice as [c|err]; [exact Hinv|].
    destruct (err_code err) as [z|]; [destruct (Z.eqb z 0)|]; exact Hinv.
  - unfold discoverStart. destruct (connectedDeviceRef st); exact Hinv.
  - unfold validateStart. destruct (connectedDeviceRef st); exact Hinv.
  - exact Hinv.
  - exact Hinv.
  - exact Hinv.
  - unfold onDisconnect.
    destruct (match connectedDeviceRef st with Some _ => cancel | None => Ok tt end);
      exact Hinv.
  - unfold disconnectSettled. destruct awaited; exact Hinv.
  - unfold teardownDone.
    destruct (nth_error (handles (platform st)) h) as [[| |]|] eqn:Hh; try exact Hinv.
    unfold onlyRefAlive, lifecycle in *.
    cbn [platform handles setPlatform bleManagerRef].
    assert (Hlt : (h < List.length (handles (platform st)))%nat)
      by (apply nth_error_Some; congruence).
    intros h' Hal. destruct (Nat.eq_dec h h') as [<-|Hne].
    + rewrite nth_error_setNth in Hal by exact Hlt. discriminate.
    + rewrite nth_error_setNth_other in Hal by exact Hne. now apply Hinv.
Qed.

(** X13. Starting from a platform with no live handle, in every state the
    mounted screen can reach a handle on which [destroy()] has not been called
    is the one in the manager ref, so there is at most one such handle: every
    other handle is being torn down or destroyed.  The ref itself may hold a
    handle that is being torn down or is destroyed. *)
Theorem only_ref_alive :
  forall (acts : list Action) (p : Platform),
    Forall (fun l => l <> Alive) (handles p) ->
    let st := run acts (initialState p) in
    onlyRefAlive st
    /\ (forall h1 h2, lifecycle h1 st = Some Alive -> lifecycle h2 st = Some Alive ->
                      h1 = h2).
Proof.
  intros acts p Hp st.
  assert (Hinv : onlyRefAlive st).
  { subst st. unfold run.
    assert (H0 : onlyRefAlive (initialState p)).
    { intros h Hal. exfalso. unfold lifecycle in Hal.
      cbn in Hal. apply nth_error_In in Hal.
      rewrite Forall_forall in Hp. now apply (Hp Alive Hal). }
    revert H0. generalize (initialState p).
    induction acts as [|a acts IH]; intros s H; cbn [fold_left]; [exact H|].
    apply IH. now apply onlyRefAlive_perform. }
  split; [exact Hinv|].
  intros h1 h2 A1 A2.
  specialize (Hinv h1 A1) as E1. specialize (Hinv h2 A2) as E2. congruence.
Qed.

Lemma only_ref_alive_witness :
  let st := run [ Act (EvCreateManager (Ok tt)); Act (EvCreateManager (Ok tt));
                  TeardownDone 0 ] (initialState freshPlatform) in
  bleManagerRef st = Some 0%nat
  /\ lifecycle 0 st = Some Destroyed
  /\ onlyRefAlive st.
Proof.
  split; [reflexivity|]. split; [reflexivity|].
  refine (proj1 (@only_ref_alive
                   [ Act (EvCreateManager (Ok tt)); Act (EvCreateManager (Ok tt));
                     TeardownDone 0 ] freshPlatform _)).
  constructor.
Defined.

(** ** Buttons, Disconnect and reconnecting *)

(** X14. A failed connect attempt made while an earlier connection is still
    referenced keeps that reference but takes the Disconnect button and the
    step 6 button away; step 6's own status is untouched, so if it was Pass
    the step 7 button stays on and step 7 then runs on the earlier device. *)
Theorem failed_reconnect_keeps_stale_connection :
  forall (st : AppState) (m : nat) (earlier : Device) (device : DiscoveredDevice)
         (error : Error),
    bleManagerRef st = Some m ->
    connectedDeviceRef st = Some earlier ->
    let st' := runConnect device (Throw error) st in
    connectedDeviceRef st' = Some earlier
    /\ disconnectButtonShown st' = false
    /\ discoverButtonEnabled st' = false
    /\ validateButtonEnabled st' = validateButtonEnabled st
    /\ prerequisite Validate st' = true.
Proof.
  intros st m earlier device error Hm Hd st'. subst st'.
  destruct (@runConnect_throw device error st m Hm) as [Hs [Hr _]].
  unfold disconnectButtonShown, discoverButtonEnabled, validateButtonEnabled,
    discoverStatus.
  pose proof (frame_runConnect device (Throw error) st) as F. unfold frame in F.
  destruct (F Discover) as [Fd _]; [discriminate|].
  rewrite Hs, Hr, Fd, Hd. cbn [prerequisite]. rewrite Hr, Hd. repeat split.
Qed.

Lemma failed_reconnect_keeps_stale_connection_witness :
  let st' := runConnect (toEntry sampleDevice) (Throw sampleThrow) connected in
  connectedDeviceRef st' = Some sampleDevice /\ disconnectButtonShown st' = false.
Proof.
  destruct (@failed_reconnect_keeps_stale_connection connected 0 sampleDevice
              (toEntry sampleDevice) sampleThrow eq_refl eq_refl) as [H1 [H2 _]].
  split; [exact H1 | exact H2].
Defined.

(** X15. After a Disconnect that goes through, the Disconnect button is gone
    and the buttons of steps 6 and 7 are off; and if steps 6 and 7 are run
    all the same, each stops at its guard: Fail, with the guard's line as the
    only line of its log. *)
Theorem after_disconnect :
  forall (st : AppState) (cancel : result unit),
    connectedDeviceRef st = None \/ (exists u, cancel = Ok u) ->
    let st' := onDisconnect cancel st in
    disconnectButtonShown st' = false
    /\ discoverButtonEnabled st' = false
    /\ validateButtonEnabled st' = false
    /\ (forall outcome,
           discoverStatus (runDiscoverServices outcome st') = fail
           /\ messages (discoverLogs (runDiscoverServices outcome st'))
              = [ "ERROR: No connected device — run Step 5 first" ])
    /\ (forall outcome,
           validateStatus (runValidateChars outcome st') = fail
           /\ messages (validateLogs (runValidateChars outcome st'))
              = [ "ERROR: No connected device" ]).
Proof.
  intros st cancel H st'.
  assert (E : st' = setLogs Validate []
                      (setStatus Validate pending
                         (setLogs Discover []
                            (setStatus Discover pending
                               (setLogs Connect []
                                  (setStatus Connect pending
                                     (setConnectedRef None st))))))).
  { subst st'. unfold onDisconnect. destruct H as [H|[u ->]].
    - now rewrite H.
    - now destruct (connectedDeviceRef st). }
  rewrite E. split; [reflexivity | split; [reflexivity | split; [reflexivity|]]].
  split; intros outcome.
  - unfold runDiscoverServices. cbn [connectedDeviceRef setLogs setStatus setConnectedRef].
    split; reflexivity.
  - unfold runValidateChars. cbn [connectedDeviceRef setLogs setStatus setConnectedRef].
    split; reflexivity.
Qed.

Lemma after_disconnect_witness :
  disconnectButtonShown (onDisconnect (Ok tt) connected) = false.
Proof.
  refine (proj1 (@after_disconnect connected (Ok tt) _)).
  right. exists tt. reflexivity.
Defined.

(** ** The expanded sections *)

Lemma get_set_same {V} (m : Map V) k v : get (set m k v) k = Some v.
Proof.
  induction m as [|[k' v'] r IH]; cbn.
  - now rewrite String.eqb_refl.
  - destruct (String.eqb k' k) eqn:E; cbn; [now rewrite String.eqb_refl|].
    now rewrite E.
Qed.

Lemma get_set_other {V} (m : Map V) k k' v : k' <> k -> get (set m k v) k' = get m k'.
Proof.
  intros Hne. induction m as [|[k0 v0] r IH]; cbn.
  - destruct (String.eqb k k') eqn:E; [|reflexivity].
    apply String.eqb_eq in E. congruence.
  - destruct (String.eqb k0 k) eqn:E; cbn.
    + apply String.eqb_eq in E. subst k0.
      destruct (String.eqb k k') eqn:E'; [|reflexivity].
      apply String.eqb_eq in E'. congruence.
    + now rewrite IH.
Qed.

Lemma set_set {V} (m : Map V) k v w : set (set m k v) k w = set m k w.
Proof.
  induction m as [|[k' v'] r IH]; cbn.
  - now rewrite String.eqb_refl.
  - destruct (String.eqb k' k) eqn:E; cbn; [now rewrite String.eqb_refl|].
    now rewrite E, IH.
Qed.

Lemma set_get {V} (m : Map V) k v : get m k = Some v -> set m k v = m.
Proof.
  induction m as [|[k' v'] r IH]; cbn; [discriminate|].
  destruct (String.eqb k' k) eqn:E.
  - apply String.eqb_eq in E. subst k'. intros H. now injection H as <-.
  - intros H. now rewrite IH.
Qed.

Lemma keys_set_has {V} (m : Map V) k v : has m k = true -> keys (set m k v) = keys m.
Proof.
  unfold keys. induction m as [|[k' v'] r IH]; cbn; [discriminate|].
  destruct (String.eqb k' k) eqn:E; cbn.
  - apply String.eqb_eq in E. now subst k'.
  - intros H. now rewrite IH.
Qed.

(** X16. Toggling a section the object has flips what [expanded] holds for it
    and leaves every other section and the order of the keys as they were;
    toggling it twice gives the object back. *)
Theorem toggle_section :
  forall (key : string) (prev : Map bool),
    has prev key = true ->
    get (toggleSection key prev) key = Some (negb (isExpanded prev key))
    /\ (forall other, other <> key ->
                      get (toggleSection key prev) other = get prev other)
    /\ keys (toggleSection key prev) = keys prev
    /\ toggleSection key (toggleSection key prev) = prev.
Proof.
  intros key prev Hhas. unfold toggleSection, isExpanded. split; [|split; [|split]].
  - apply get_set_same.
  - intros other Hne. now apply get_set_other.
  - now apply keys_set_has.
  - rewrite get_set_same, set_set. cbn [truthy].
    rewrite negb_involutive. apply set_get.
    destruct (get prev key) as [b|] eqn:Hg; [reflexivity|].
    apply get_None_has in Hg. congruence.
Qed.

Lemma toggle_section_witness :
  get (toggleSection "scan" initialExpanded) "scan" = Some false
  /\ toggleSection "scan" (toggleSection "scan" initialExpanded) = initialExpanded.
Proof.
  destruct (@toggle_section "scan" initialExpanded eq_refl) as (H1 & _ & _ & H4).
  split; [exact H1 | exact H4].
Defined.

(** ** Mounting and unmounting *)





(** X18. What the mount effect leaves, on any platform.  If the manager
    cannot be created, step 1 is Fail and step 2 stops at its guard: Fail,
    one line, no subscription.  If it is created and the adapter is
    PoweredOn, steps 1 and 2 are both Pass and no subscription is made.  If
    it is created and the adapter is in any other state, step 2 is left
    Running with one new subscription.  Steps 3 to 7 are Pending with empty
    logs in every case. *)
Theorem mount_effect :
  forall (alloc : result unit) (state : State) (p : Platform),
    let st := fst (mountEffect alloc state p) in
    let sub := snd (mountEffect alloc state p) in
    (forall k, In k [Scan; FilteredScan; Connect; Discover; Validate] ->
               status st k = pending /\ logs st k = [])
    /\ match alloc with
       | Throw _ =>
           createStatus st = fail /\ stateStatus st = fail /\ sub = None
           /\ messages (stateLogs st) = [ "ERROR: No BleManager — run Step 1 first" ]
           /\ subsCreated (platform st) = subsCreated p
       | Ok _ =>
           createStatus st = pass
           /\ match state with
              | PoweredOn =>
                  stateStatus st = pass /\ sub = None
                  /\ subsCreated (platform st) = subsCreated p
              | _ =>
                  stateStatus st = running /\ sub = Some (subsCreated p)
                  /\ subsCreated (platform st) = S (subsCreated p)
              end
       end.
Proof.
  intros alloc state p st sub. subst st sub. unfold mountEffect. split.
  - intros k Hk. unfold checkStateRun.
    assert (Hne1 : k <> Create) by (intros ->; cbn in Hk; intuition discriminate).
    assert (Hne2 : k <> CheckState) by (intros ->; cbn in Hk; intuition discriminate).
    set (s1 := runCreateManager alloc (initialState p)).
    assert (H1 : status s1 k = pending /\ logs s1 k = []).
    { pose proof (frame_runCreateManager alloc (initialState p)) as F. unfold frame in F.
      destruct (F k Hne1) as [Fs Fl]. subst s1. rewrite Fs, Fl.
      destruct k; split; reflexivity. }
    assert (H2 : status (fst (runCheckState s1)) k = status s1 k
                 /\ logs (fst (runCheckState s1)) k = logs s1 k).
    { pose proof (frame_runCheckState s1) as F. unfold frame in F. now apply F. }
    destruct (runCheckState s1) as [s2 [mgr|]] eqn:Hrun; cbn [fst] in *.
    + pose proof (frame_onStateResolved state s2) as F. unfold frame in F.
      destruct (F k Hne2) as [Fs Fl]. destruct H1, H2. split; congruence.
    + destruct H1, H2. split; congruence.
  - destruct alloc as [u|err].
    + unfold runCreateManager, newBleManager.
      match goal with
      | |- context [sharedInstance ?x] => destruct (sharedInstance x)
      end; destruct state; repeat split.
    + repeat split.
Qed.

(** ** The provisioning screen *)

Lemma provision_invariant_initial : Provision.invariant Provision.initial.
Proof.
  unfold Provision.invariant, Provision.initial. cbn.
  repeat split; intros; try discriminate; try lia.
Qed.

(** Uses up the hypotheses whose premises are closed. *)
Ltac fire_closed :=
  repeat match goal with
         | H : ?x = ?x -> _ |- _ => specialize (H eq_refl)
         | H : (0 < S ?n)%nat -> _ |- _ => specialize (H (Nat.lt_0_succ n))
         | H : true = false -> _ |- _ => clear H
         | H : false = true -> _ |- _ => clear H
         | H : S _ = 0%nat -> _ |- _ => clear H
         | H : (0 < 0)%nat -> _ |- _ => clear H
         | H : _ /\ _ |- _ => destruct H
         end.

Ltac close_case :=
  fire_closed; subst; try discriminate; try congruence;
  repeat split; intros; try discriminate; try congruence; try lia; try assumption.

Lemma provision_invariant_step s e :
  Provision.invariant s -> Provision.invariant (Provision.step s e).
Proof.
  destruct s as [b c k r m st rc dc pt].
  unfold Provision.invariant, Provision.step, Provision.enabled.
  intros (A & B & C & D & E & F & G). cbn in A, B, C, D, E, F, G.
  destruct e as [|state| |].
  - destruct c, k, r, st, rc as [|rc], pt as [|pt]; cbn in *; close_case.
  - unfold Provision.listener.
    destruct c, k, r, st, rc as [|rc], pt as [|pt];
      destruct (Provision.definitive state) eqn:Hdef; cbn in *; close_case.
  - destruct c, k, r, st, rc as [|rc], pt as [|pt]; cbn in *; close_case.
  - destruct c, k, r, st, rc as [|rc], pt as [|pt]; cbn in *; close_case.
Qed.

Lemma provision_invariant_run evs : Provision.invariant (Provision.run evs).
Proof.
  unfold Provision.run. generalize provision_invariant_initial.
  generalize Provision.initial.
  induction evs as [|e evs IH]; intros s H; cbn [fold_left]; [exact H|].
  apply IH. now apply provision_invariant_step.
Qed.

(** X19. On the provisioning screen, after any sequence of events the runtime
    can deliver, the navigator is rendered only when the adapter state is
    PoweredOn and the temporary manager's teardown has completed; an
    unavailable message is shown only after that teardown too, and it is the
    message of the current state.  While the screen is mounted [destroy()] has
    been called at most once; the unmount cleanup can add a second call. *)
Theorem provision_navigator_after_teardown :
  forall (evs : list Provision.Ev),
    let s := Provision.run evs in
    (Provision.render s = Provision.Navigator ->
     Provision.bleState s = PoweredOn /\ Provision.manager s = Some Destroyed)
    /\ (forall message,
           Provision.render s = Provision.Unavailable message ->
           Provision.manager s = Some Destroyed
           /\ Provision.BLE_STATE_MESSAGES (Provision.bleState s) = Some message)
    /\ (Provision.destroyCalls s <= 2)%nat
    /\ (Provision.cancelled s = false -> (Provision.destroyCalls s <= 1)%nat).
Proof.
  intros evs s. destruct (provision_invariant_run evs) as (_ & _ & _ & _ & E & F & G).
  fold s in E, F, G. unfold Provision.render.
  split; [|split; [|split; [exact F | exact G]]].
  - destruct (Provision.checking s); [discriminate|].
    destruct (E eq_refl) as (Hm & Hdef & _). intros H. split; [|exact Hm].
    destruct (Provision.bleState s); cbn in *; try discriminate; reflexivity.
  - intros message. destruct (Provision.checking s); [discriminate|].
    destruct (E eq_refl) as (Hm & _ & _). intros H. split; [exact Hm|].
    destruct (Provision.BLE_STATE_MESSAGES (Provision.bleState s)); congruence.
Qed.

Lemma provision_navigator_after_teardown_witness :
  let s := Provision.run [ Provision.Init; Provision.Listener Unknown;
                           Provision.Listener PoweredOn; Provision.DestroySettled ] in
  Provision.render s = Provision.Navigator
  /\ Provision.bleState s = PoweredOn /\ Provision.manager s = Some Destroyed.
Proof.
  split; [reflexivity|].
  refine (proj1 (@provision_navigator_after_teardown
                   [ Provision.Init; Provision.Listener Unknown;
                     Provision.Listener PoweredOn; Provision.DestroySettled ]) _).
  reflexivity.
Defined.

Lemma provision_cancelled_step s e :
  Provision.cancelled s = true ->
  Provision.cancelled (Provision.step s e) = true
  /\ Provision.bleState (Provision.step s e) = Provision.bleState s
  /\ Provision.checking (Provision.step s e) = Provision.checking s
  /\ (Provision.manager s = None -> Provision.cleanupRef s = false ->
      Provision.manager (Provision.step s e) = None
      /\ Provision.cleanupRef (Provision.step s e) = false)
  /\ (Provision.cleanupRef s = false ->
      Provision.destroyCalls (Provision.step s e) = Provision.destroyCalls s).
Proof.
  destruct s as [b c k r m st rc dc pt]. cbn. intros ->.
  unfold Provision.step, Provision.enabled.
  destruct e as [|state| |];
    destruct st, r, rc as [|rc], pt as [|pt], m as [[| |]|]; cbn;
    repeat split; intros; try discriminate; try congruence; auto.
Qed.

Lemma provision_unmount_cancels x :
  Provision.cancelled (Provision.step x Provision.Unmount) = true.
Proof.
  destruct x as [b c k r m st rc dc pt]. unfold Provision.step, Provision.enabled.
  destruct k, r; reflexivity.
Qed.

(** X20. Once the provisioning screen has unmounted, no later event writes a
    state cell: the adapter state, the checking flag and hence the rendered
    view stay as they were.  If the unmount comes before [init] has resumed
    from its await, no manager is ever created and [destroy()] is never
    called. *)
Theorem provision_unmounted_is_frozen :
  forall (before after : list Provision.Ev),
    let s := Provision.run (before ++ [Provision.Unmount]) in
    let s' := Provision.run (before ++ Provision.Unmount :: after) in
    (Provision.cancelled s = true
     /\ Provision.bleState s' = Provision.bleState s
     /\ Provision.checking s' = Provision.checking s
     /\ Provision.render s' = Provision.render s)
    /\ (before = [] ->
        Provision.manager s' = None /\ Provision.destroyCalls s' = 0%nat).
Proof.
  intros before after s s'.
  assert (Hs' : s' = fold_left Provision.step after s).
  { subst s s'. unfold Provision.run.
    change (before ++ Provision.Unmount :: after)%list
      with (before ++ [Provision.Unmount] ++ after)%list.
    now rewrite app_assoc, fold_left_app. }
  assert (G : forall evs x,
            Provision.cancelled x = true ->
            let y := fold_left Provision.step evs x in
            Provision.cancelled y = true
            /\ Provision.bleState y = Provision.bleState x
            /\ Provision.checking y = Provision.checking x
            /\ (Provision.manager x = None -> Provision.cleanupRef x = false ->
                Provision.destroyCalls y = Provision.destroyCalls x
                /\ Provision.manager y = None)).
  { clear. induction evs as [|e evs IH]; intros x Hx; cbn [fold_left].
    - cbv zeta. auto.
    - destruct (provision_cancelled_step x e Hx) as (H1 & H2 & H3 & H4 & H5).
      destruct (IH (Provision.step x e) H1) as (K1 & K2 & K3 & K4).
      cbv zeta. split; [exact K1 | split; [congruence | split; [congruence|]]].
      intros Hm Hr. destruct (H4 Hm Hr) as [Hm' Hr'].
      destruct (K4 Hm' Hr') as [Kd Km]. split; [|exact Km].
      rewrite Kd. now apply H5. }
  assert (Hc : Provision.cancelled s = true).
  { subst s. unfold Provision.run. rewrite fold_left_app. cbn [fold_left].
    apply provision_unmount_cancels. }
  split.
  - destruct (G after s Hc) as (_ & Hb & Hk & _). rewrite Hs'.
    cbv zeta in Hb, Hk. split; [exact Hc | split; [exact Hb | split; [exact Hk|]]].
    unfold Provision.render. now rewrite Hb, Hk.
  - intros Hb. subst before. rewrite Hs'.
    destruct (G after s eq_refl) as (_ & _ & _ & K).
    destruct (K eq_refl eq_refl) as [Kd Km]. cbv zeta in Kd, Km.
    rewrite Kd, Km. split; reflexivity.
Qed.

Lemma provision_unmounted_is_frozen_witness :
  Provision.manager
    (Provision.run [ Provision.Unmount; Provision.Init; Provision.Listener PoweredOn ])
  = None.
Proof.
  refine (proj1 (proj2 (@provision_unmounted_is_frozen
                          [] [ Provision.Init; Provision.Listener PoweredOn ]) _)).
  reflexivity.
Defined.

Lemma last_cons_default {A} (l : list A) : forall a d d',
  last (a :: l) d = last (a :: l) d'.
Proof.
  induction l as [|x l IH]; intros a d d'; [reflexivity|].
  change (last (x :: l) d = last (x :: l) d'). apply IH.
Qed.

Lemma provision_waiting pre : forall b,
  forallb (fun s => negb (Provision.definitive s)) pre = true ->
  fold_left Provision.step (map Provision.Listener pre)
            (Provision.mkScreen b true false true (Some Alive) true 0 0 0)
  = Provision.mkScreen (last pre b) true false true (Some Alive) true 0 0 0.
Proof.
  induction pre as [|s pre IH]; intros b Hall; [reflexivity|].
  cbn [forallb] in Hall. apply andb_true_iff in Hall. destruct Hall as [Hs Hall].
  apply negb_true_iff in Hs. cbn [map fold_left].
  unfold Provision.step at 2. cbn. unfold Provision.listener. cbn. rewrite Hs.
  rewrite (IH s Hall). f_equal. destruct pre as [|s0 pre]; [reflexivity|].
  change (last (s :: s0 :: pre) b) with (last (s0 :: pre) b).
  apply last_cons_default.
Qed.

(** X21. On the provisioning screen, as long as the adapter only reports
    Unknown or Resetting the view stays on "Checking" with the temporary
    manager alive and [destroy()] not called - there is no timeout.  The
    first other state starts the manager's teardown, and the view still
    stays on "Checking" until that teardown has settled; only then does it
    show the message of that state, or the navigator when the state has
    none (PoweredOn). *)
Theorem provision_checking_until_settled :
  forall (pre : list State) (state : State),
    forallb (fun s => negb (Provision.definitive s)) pre = true ->
    Provision.definitive state = true ->
    let waiting := (Provision.Init :: map Provision.Listener pre)%list in
    (Provision.render (Provision.run waiting) = Provision.Checking
     /\ Provision.manager (Provision.run waiting) = Some Alive
     /\ Provision.destroyCalls (Provision.run waiting) = 0%nat)
    /\ (Provision.render (Provision.run (waiting ++ [Provision.Listener state]))
        = Provision.Checking
        /\ Provision.manager (Provision.run (waiting ++ [Provision.Listener state]))
           = Some TearingDown)
    /\ Provision.render
         (Provision.run (waiting ++ [Provision.Listener state; Provision.DestroySettled]))
       = match Provision.BLE_STATE_MESSAGES state with
         | Some message => Provision.Unavailable message
         | None => Provision.Navigator
         end.
Proof.
  intros pre state Hpre Hdef waiting.
  assert (Hw : Provision.run waiting
               = Provision.mkScreen (last pre Unknown) true false true (Some Alive)
                                    true 0 0 0).
  { subst waiting. unfold Provision.run. cbn [fold_left].
    change (Provision.step Provision.initial Provision.Init)
      with (Provision.mkScreen Unknown true false true (Some Alive) true 0 0 0).
    now apply provision_waiting. }
  assert (Hx : forall more,
             Provision.run (waiting ++ more) = fold_left Provision.step more
                                                 (Provision.run waiting)).
  { intros more. unfold Provision.run. apply fold_left_app. }
  rewrite !Hx, Hw. cbn [fold_left].
  unfold Provision.step, Provision.enabled, Provision.listener. cbn. rewrite Hdef. cbn.
  unfold Provision.render. cbn. repeat split.
Qed.

Lemma provision_checking_until_settled_witness :
  Provision.render
    (Provision.run [ Provision.Init; Provision.Listener Unknown;
                     Provision.Listener PoweredOff; Provision.DestroySettled ])
  = Provision.Unavailable "Bluetooth is turned off. Please enable Bluetooth to continue.".
Proof.
  refine (proj2 (proj2 (@provision_checking_until_settled [Unknown] PoweredOff _ _)));
    reflexivity.
Defined.

(** ** Step 2 while it waits *)

Lemma stateListener_waiting sub s st :
  State_eqb s PoweredOn = false ->
  let st' := stateListener sub s st in
  stateStatus st' = stateStatus st
  /\ bleState st' = s
  /\ messages (stateLogs st') = (messages (stateLogs st) ++ [stateChangedLine s])%list
  /\ subsRemoved (platform st') = subsRemoved (platform st)
  /\ subsCreated (platform st') = subsCreated (platform st).
Proof.
  intros H. unfold stateListener. rewrite H. cbv zeta. unfold stateLogs.
  rewrite messages_addLog. repeat split.
Qed.

Lemma stateListenerFold_waiting sub ss : forall st,
  forallb (fun s => negb (State_eqb s PoweredOn)) ss = true ->
  let st' := stateListenerFold sub ss st in
  stateStatus st' = stateStatus st
  /\ bleState st' = last ss (bleState st)
  /\ messages (stateLogs st')
     = (messages (stateLogs st) ++ map stateChangedLine ss)%list
  /\ subsRemoved (platform st') = subsRemoved (platform st)
  /\ subsCreated (platform st') = subsCreated (platform st).
Proof.
  unfold stateListenerFold.
  induction ss as [|s ss IH]; intros st Hall; cbn [fold_left map].
  - cbv zeta. rewrite app_nil_r. repeat split.
  - cbn [forallb] in Hall. apply andb_true_iff in Hall. destruct Hall as [Hs Hall].
    apply negb_true_iff in Hs.
    destruct (@stateListener_waiting sub s st Hs) as (A1 & A2 & A3 & A4 & A5).
    destruct (IH (stateListener sub s st) Hall) as (B1 & B2 & B3 & B4 & B5).
    cbv zeta in *. rewrite B1, B2, B3, B4, B5, A1, A2, A3, A4, A5, <- app_assoc.
    repeat split. destruct ss as [|s0 ss]; [reflexivity|].
    change (last (s :: s0 :: ss) (bleState st)) with (last (s0 :: ss) (bleState st)).
    apply last_cons_default.
Qed.

(** X22. Step 2 with a manager and an adapter that is not PoweredOn: the step
    subscribes and, for as long as its listener is handed states other than
    PoweredOn, stays Running, releases nothing, shows the last state received
    and adds one line per state received after its three opening lines.  The
    first PoweredOn then makes it Pass, shows PoweredOn and adds its line. *)
Theorem state_wait_until_powered_on :
  forall (st : AppState) (m : nat) (s : State) (ss : list State),
    bleManagerRef st = Some m ->
    State_eqb s PoweredOn = false ->
    forallb (fun x => negb (State_eqb x PoweredOn)) ss = true ->
    let sub := subsCreated (platform st) in
    let waiting := stateListenerFold sub ss (fst (checkStateRun s st)) in
    let done := stateListener sub PoweredOn waiting in
    snd (checkStateRun s st) = Some sub
    /\ (stateStatus waiting = running
        /\ bleState waiting = last ss s
        /\ subsRemoved (platform waiting) = subsRemoved (platform st)
        /\ messages (stateLogs waiting)
           = ([ "Checking BLE adapter state...";
                ("Current state: " ++ State_str s)%string;
                ("Waiting for state change (currently " ++ State_str s ++ ")...")%string ]
              ++ map stateChangedLine ss)%list)
    /\ (stateStatus done = pass
        /\ bleState done = PoweredOn
        /\ messages (stateLogs done)
           = (messages (stateLogs waiting) ++ [ "State changed to: PoweredOn" ])%list).
Proof.
  intros st m s ss Hm Hs Hss sub waiting done.
  assert (Hrun : checkStateRun s st
                 = onStateResolved s
                     (addLog CheckState "Checking BLE adapter state..."
                        (setLogs CheckState [] (setStatus CheckState running st)))).
  { unfold checkStateRun, runCheckState. now rewrite Hm. }
  assert (H0 : snd (checkStateRun s st) = Some sub
               /\ stateStatus (fst (checkStateRun s st)) = running
               /\ bleState (fst (checkStateRun s st)) = s
               /\ subsRemoved (platform (fst (checkStateRun s st)))
                  = subsRemoved (platform st)
               /\ messages (stateLogs (fst (checkStateRun s st)))
                  = [ "Checking BLE adapter state...";
                      ("Current state: " ++ State_str s)%string;
                      ("Waiting for state change (currently " ++ State_str s
                       ++ ")...")%string ]).
  { rewrite Hrun. unfold onStateResolved. rewrite Hs. cbv zeta.
    unfold onStateChange. cbn [fst snd]. unfold stateLogs.
    split; [reflexivity | split; [reflexivity | split; [reflexivity | split;
      [reflexivity|]]]].
    change (logs (setPlatform ?p ?x) CheckState) with (logs x CheckState).
    rewrite !messages_addLog.
    change (logs (setBleState ?b ?x) CheckState) with (logs x CheckState).
    rewrite messages_addLog, logs_setLogs. reflexivity. }
  destruct H0 as (K0 & K1 & K2 & K3 & K4).
  destruct (@stateListenerFold_waiting sub ss (fst (checkStateRun s st)) Hss)
    as (B1 & B2 & B3 & B4 & _).
  fold waiting in B1, B2, B3, B4.
  split; [exact K0 | split].
  - rewrite B1, B2, B3, B4, K1, K2, K3, K4. repeat split.
  - subst done. unfold stateListener. cbn [State_eqb]. cbv zeta. unfold stateLogs.
    split; [reflexivity | split; [reflexivity|]].
    change (logs (remove ?a ?x) CheckState) with (logs x CheckState).
    rewrite logs_setStatus, messages_addLog. reflexivity.
Qed.

Lemma state_wait_until_powered_on_witness :
  let waiting := stateListenerFold 0 [PoweredOff; Resetting]
                   (fst (checkStateRun PoweredOff mounted)) in
  stateStatus waiting = running /\ bleState waiting = Resetting.
Proof.
  destruct (@state_wait_until_powered_on mounted 0 PoweredOff [PoweredOff; Resetting]
              eq_refl eq_refl eq_refl) as (_ & (H1 & H2 & _) & _).
  split; [exact H1 | exact H2].
Defined.
